(** * RebutlyTrial3: matchmaking, phase machine and rating settlement

    A shallow embedding of the pairing, session-progression and rating code
    of the repository:

    - [Elo]: the POST handler of the [update-elo] edge function
      ([src/index.ts]), over the tables of the base migration;
    - [PhaseSql]: the PL/pgSQL function [advance_debate_phase]
      ([src/20260204000001_add_hvh_debate_fields.sql]);
    - [LiveDebateRoom]: the phase handlers of the human-vs-human room
      component ([src/HeroSection.tsx]);
    - [Queue]: the [useMatchmaking] hook ([src/unnamed/part_000]) and the
      partial unique index of [src/unnamed/part_002];
    - [LiveDebateRoomView]: the turn and the offer election of the same
      room component;
    - [RoomResults]: what the results page reads and shows
      ([src/src/pages/RoomResults.tsx]);
    - [PrepTimer] and [TransitionCountdown]: the two timer components
      ([src/unnamed/part_006], [src/unnamed/part_007]); the room mounts
      the second as its pause overlay;
    - [EloStore]: the same handler when the store checks the range of its
      INTEGER columns, and [Submissions]: the table of result submissions
      under its constraint and row security policies
      ([src/supabase/migrations]).

    JavaScript strings are [string], UUIDs are strings, SQL INTEGER columns
    are [Z] (with their range where [EloStore] checks it), nullable columns
    are [option].  A JavaScript [number] that the
    code only ever uses as an integer is a [Z]; the floating-point
    expressions of the rating update are embedded over an arithmetic given
    as a class, of which the real numbers are the exact instance.  A table
    is the list of its rows; an event handler of a client runs to its end
    before the next one starts. *)

From Stdlib Require Import ZArith QArith Reals Lra Lia.
From stdpp Require Import base option list strings gmap.

#[local] Open Scope string_scope.
#[local] Open Scope Z_scope.

(** Identifiers generated by [gen_random_uuid()], as the client sees them. *)
Abbreviation uuid := string (only parsing).

(* ===================================================================== *)
(** * Generic table operations (PostgREST filters over a list of rows)     *)
(* ===================================================================== *)

(** [UPDATE t SET ... WHERE p]: every row matching [p] is rewritten by [f]. *)
Definition update_where {A} (p : A → bool) (f : A → A) (t : list A) : list A :=
  map (λ r, if p r then f r else r) t.

(** [DELETE FROM t WHERE p]. *)
Definition delete_where {A} (p : A → bool) (t : list A) : list A :=
  List.filter (λ r, negb (p r)) t.

(** [SELECT * FROM t WHERE p]. *)
Definition select_where {A} (p : A → bool) (t : list A) : list A :=
  List.filter p t.

(** [.single()]: exactly one row, otherwise an error. *)
Definition single {A} (rows : list A) : option A :=
  match rows with
  | [r] => Some r
  | _ => None
  end.

(** Number of rows an [UPDATE ... WHERE p] touches ([ROW_COUNT]). *)
Definition row_count {A} (p : A → bool) (t : list A) : Z :=
  Z.of_nat (length (List.filter p t)).

Definition eqb_uuid (a b : string) : bool := bool_decide (a = b).

(* ===================================================================== *)
(** * The rating engine: [update-elo] ([src/index.ts])                      *)
(* ===================================================================== *)

Module Elo.

Inductive match_mode := ranked | unranked.
Inductive room_status := reserved | live | completed | abandoned.
Inductive match_result := win | loss | draw.

#[global] Instance match_mode_eq_dec : EqDecision match_mode.
Proof. solve_decision. Defined.
#[global] Instance room_status_eq_dec : EqDecision room_status.
Proof. solve_decision. Defined.
#[global] Instance match_result_eq_dec : EqDecision match_result.
Proof. solve_decision. Defined.

(** Rows of [debate_rooms]; timestamps are milliseconds since the epoch
    (what [new Date(...).getTime()] yields). *)
Record debate_room := {
  room_id : uuid;
  room_format : string;
  room_mode : match_mode;
  room_status_of : room_status;
  is_ai_opponent : bool;
  created_at : Z;
  started_at : option Z;
  ended_at : option Z;
}.

(** Rows of [match_result_submissions]. *)
Record submission := {
  sub_room_id : uuid;
  sub_user_id : uuid;
  submitted_result : match_result;
}.

(** Rows of [debate_participants]. *)
Record participant := {
  part_room_id : uuid;
  part_user_id : option uuid;
  is_ai : bool;
}.

(** Rows of [profiles]: [elo_by_format] is a JSON object from format name
    to rating; the three counters are nullable INTEGER columns. *)
Record profile := {
  prof_id : uuid;
  prof_user_id : uuid;
  elo_by_format : gmap string Z;
  total_debates : option Z;
  total_wins : option Z;
  current_streak : option Z;
}.

(** Rows of [match_history]. *)
Record history_entry := {
  h_room_id : uuid;
  user_a_id : uuid;
  user_b_id : uuid;
  h_format : string;
  h_mode : match_mode;
  winner_user_id : option uuid;
  is_draw : bool;
  rating_before_a : Z;
  rating_after_a : Z;
  rating_before_b : Z;
  rating_after_b : Z;
  duration_seconds : Z;
}.

(** The store the handler reads and writes. *)
Record Db := {
  debate_rooms : list debate_room;
  match_result_submissions : list submission;
  debate_participants : list participant;
  profiles : list profile;
  match_history : list history_entry;
}.

(** What the handler answers ([c.json(...)] with its status code). *)
Inductive response :=
  | RoomIdRequired                       (* 400 'roomId required' *)
  | RoomNotFound                         (* 404 'Room not found' *)
  | EloUpdateNotRequired                 (* 200 'ELO update not required' *)
  | NotEnoughSubmissions                 (* 400 'Not enough result submissions' *)
  | InconsistentResults                  (* 400 'Inconsistent results' *)
  | ParticipantsNotFound                 (* 400 'Participants not found' *)
  | ProfilesNotFound                     (* 400 'Profiles not found' *)
  | EloUpdated (ratingChangeA ratingChangeB : Z). (* 200 'ELO updated successfully' *)

(** ** The arithmetic of JavaScript numbers *)

(** What the handler asks of the [number] type of its platform: integer
    and fractional literals, the four operations, [Math.pow] and
    [Math.round].  The handler is embedded over any such arithmetic. *)
Class JsNumber (number : Type) := {
  of_int : Z → number;
  of_ratio : Q → number;
  js_add : number → number → number;
  js_sub : number → number → number;
  js_mul : number → number → number;
  js_div : number → number → number;
  Math_pow : number → number → number;
  Math_round : number → Z;
}.

Declare Scope js_scope.
Delimit Scope js_scope with js.
Infix "+" := js_add : js_scope.
Infix "-" := js_sub : js_scope.
Infix "*" := js_mul : js_scope.
Infix "/" := js_div : js_scope.

(** The exact reading: numbers are real numbers, [Math.pow] is the real
    power and [Math.round] is the nearest integer, halves going up, that
    is [floor (x + 1/2)]. *)
#[global] Instance real_number : JsNumber R := {|
  of_int := IZR;
  of_ratio := Q2R;
  js_add := Rplus;
  js_sub := Rminus;
  js_mul := Rmult;
  js_div := Rdiv;
  Math_pow := Rpower;
  Math_round := λ x, Int_part (x + / 2)%R;
|}.

(** ** The numeric kernel *)

(** [const getKFactor = (rating) => ...] *)
Definition getKFactor (rating : Z) : Z :=
  if rating <? 1200 then 40
  else if rating <? 2000 then 20
  else 10.

Section Handler.
Context {number : Type} `{JsNumber number}.

(** [1 / (1 + Math.pow(10, (ratingB - ratingA) / 400))] *)
Definition expected (ratingA ratingB : Z) : number :=
  (of_int 1 / (of_int 1 + Math_pow (of_int 10)
                            ((of_int ratingB - of_int ratingA) / of_int 400)))%js.

(** [Math.round(rating + k * (score - expected))] *)
Definition newRating (rating k : Z) (score : Q) (e : number) : Z :=
  Math_round (of_int rating + of_int k * (of_ratio score - e))%js.

(** [(profile.elo_by_format)?.[format] || 1200]: a missing key and a
    stored [0] both read as 1200. *)
Definition rating_of (p : profile) (format : string) : Z :=
  match elo_by_format p !! format with
  | Some r => if r =? 0 then 1200 else r
  | None => 1200
  end.

(** [(x || 0)] on a nullable INTEGER. *)
Definition or0 (x : option Z) : Z := default 0 x.

(** ** The handler, read phase: every early [return] *)

(** What the read phase hands to the write phase. *)
Record settlement := {
  s_room : debate_room;
  s_userA : profile;
  s_userB : profile;
  s_winnerUserId : option uuid;
  s_isDraw : bool;
}.

Definition results_of (subs : list submission) : list match_result :=
  map submitted_result subs.

Definition hasWin (subs : list submission) : bool :=
  bool_decide (win ∈ results_of subs).
Definition hasLoss (subs : list submission) : bool :=
  bool_decide (loss ∈ results_of subs).
Definition allDraw (subs : list submission) : bool :=
  forallb (λ r, bool_decide (r = draw)) (results_of subs).

(** [submissions.find(s => s.submitted_result === 'win')?.user_id || null] *)
Definition winner_of (subs : list submission) : option uuid :=
  match List.find (λ s, bool_decide (submitted_result s = win)) subs with
  | Some s => if bool_decide (sub_user_id s = "") then None else Some (sub_user_id s)
  | None => None
  end.

Definition checks (db : Db) (roomId : string) : response + settlement :=
  if bool_decide (roomId = "") then inl RoomIdRequired else
  match single (select_where (λ r, eqb_uuid (room_id r) roomId) (debate_rooms db)) with
  | None => inl RoomNotFound
  | Some room =>
    if negb (bool_decide (room_mode room = ranked)) || is_ai_opponent room
    then inl EloUpdateNotRequired else
    let submissions :=
      select_where (λ s, eqb_uuid (sub_room_id s) roomId) (match_result_submissions db) in
    if (length submissions <? 2)%nat then inl NotEnoughSubmissions else
    if negb ((hasWin submissions && hasLoss submissions) || allDraw submissions)
    then inl InconsistentResults else
    let participants :=
      select_where (λ p, eqb_uuid (part_room_id p) roomId && negb (is_ai p))
                   (debate_participants db) in
    if (length participants <? 2)%nat then inl ParticipantsNotFound else
    let userIds := map part_user_id participants in
    let profs :=
      select_where (λ p, bool_decide (Some (prof_user_id p) ∈ userIds)) (profiles db) in
    match profs with
    | userA :: userB :: _ =>
      let isDraw := allDraw submissions in
      let winnerUserId := if isDraw then None else winner_of submissions in
      inr {| s_room := room; s_userA := userA; s_userB := userB;
             s_winnerUserId := winnerUserId; s_isDraw := isDraw |}
    | _ => inl ProfilesNotFound
    end
  end.

(** ** The handler, write phase *)

(** [scoreA], [scoreB] *)
Definition scores (s : settlement) : Q * Q :=
  if s_isDraw s then (1 # 2, 1 # 2)%Q
  else if bool_decide (s_winnerUserId s = Some (prof_user_id (s_userA s)))
       then (1, 0)%Q
       else (0, 1)%Q.

Definition scoreA (s : settlement) : Q := fst (scores s).
Definition scoreB (s : settlement) : Q := snd (scores s).

Definition format_of (s : settlement) : string := room_format (s_room s).
Definition ratingA (s : settlement) : Z := rating_of (s_userA s) (format_of s).
Definition ratingB (s : settlement) : Z := rating_of (s_userB s) (format_of s).

Definition newRatingA (s : settlement) : Z :=
  newRating (ratingA s) (getKFactor (ratingA s)) (scoreA s)
            (expected (ratingA s) (ratingB s)).
Definition newRatingB (s : settlement) : Z :=
  newRating (ratingB s) (getKFactor (ratingB s)) (scoreB s)
            (expected (ratingB s) (ratingA s)).

(** [scoreX === 1] *)
Definition is_one (q : Q) : bool := Qeq_bool q 1.

(** The object passed to [.update({...})] for one side. *)
Definition apply_result (format : string) (new_rating : Z) (score : Q)
    (u p : profile) : profile :=
  {| prof_id := prof_id p;
     prof_user_id := prof_user_id p;
     elo_by_format := <[format := new_rating]> (elo_by_format u);
     total_debates := Some (or0 (total_debates u) + 1);
     total_wins := if is_one score then Some (or0 (total_wins u) + 1)
                   else total_wins u;
     current_streak := if is_one score then Some (or0 (current_streak u) + 1)
                       else Some 0 |}.

(** [Math.floor((endTime - startTime) / 1000)] *)
Definition durationSeconds (now : Z) (room : debate_room) : Z :=
  let startTime := default (created_at room) (started_at room) in
  let endTime := default now (ended_at room) in
  (endTime - startTime) `div` 1000.

Definition history_of (now : Z) (s : settlement) : history_entry :=
  {| h_room_id := room_id (s_room s);
     user_a_id := prof_user_id (s_userA s);
     user_b_id := prof_user_id (s_userB s);
     h_format := room_format (s_room s);
     h_mode := room_mode (s_room s);
     winner_user_id := s_winnerUserId s;
     is_draw := s_isDraw s;
     rating_before_a := ratingA s;
     rating_after_a := newRatingA s;
     rating_before_b := ratingB s;
     rating_after_b := newRatingB s;
     duration_seconds := durationSeconds now (s_room s) |}.

(** The two [profiles] updates, keyed by [id], then the history insert,
    each taken by the store; [EloStore.writes_checked] is the same phase
    when a statement can be refused. *)
Definition writes (now : Z) (s : settlement) (db : Db) : Db :=
  let a := s_userA s in
  let b := s_userB s in
  let t1 := update_where (λ p, eqb_uuid (prof_id p) (prof_id a))
              (apply_result (format_of s) (newRatingA s) (scoreA s) a) (profiles db) in
  let t2 := update_where (λ p, eqb_uuid (prof_id p) (prof_id b))
              (apply_result (format_of s) (newRatingB s) (scoreB s) b) t1 in
  {| debate_rooms := debate_rooms db;
     match_result_submissions := match_result_submissions db;
     debate_participants := debate_participants db;
     profiles := t2;
     match_history := match_history db ++ [history_of now s] |}.

(** [app.post('/')]: [now] is what [Date.now()] returns during the call. *)
Definition settle (now : Z) (db : Db) (roomId : string) : response * Db :=
  match checks db roomId with
  | inl r => (r, db)
  | inr s => (EloUpdated (newRatingA s - ratingA s) (newRatingB s - ratingB s),
              writes now s db)
  end.

End Handler.

End Elo.

(* ===================================================================== *)
(** * [advance_debate_phase] (PL/pgSQL, [20260204000001_add_hvh_debate_fields.sql]) *)
(* ===================================================================== *)

Module PhaseSql.

(** The two columns of [debate_rooms] the function reads and writes;
    [current_phase] is a nullable TEXT column. *)
Record room_row := {
  id : uuid;
  current_phase : option string;
}.

(** The SQL types and values the body of the function handles. *)
Inductive sqltype := BOOLEAN | INTEGER | BIGINT.
Inductive sqlval :=
  | VBool (b : bool)
  | VInt (n : Z)
  | VBigint (n : Z).

Inductive sqlerror :=
  | invalid_text_representation  (* invalid input syntax for type boolean *)
  | undefined_function.          (* operator does not exist *)

Definition type_of (v : sqlval) : sqltype :=
  match v with
  | VBool _ => BOOLEAN
  | VInt _ => INTEGER
  | VBigint _ => BIGINT
  end.

(** The input function of [boolean] on the decimal text of an integer:
    only "1" and "0" are boolean literals. *)
Definition boolin_of_integer_text (n : Z) : sqlerror + bool :=
  if n =? 1 then inr true
  else if n =? 0 then inr false
  else inl invalid_text_representation.

(** PL/pgSQL assignment of a value to a variable declared with type [t].
    A value of the declared type is stored as it is and the integer types
    convert among themselves (their ranges are not modelled).  There is no
    assignment cast between [boolean] and an integer type, so PL/pgSQL
    converts through the text form of the value: "t" and "f" are not
    integers, and of the integers only "1" and "0" are booleans. *)
Definition assign (t : sqltype) (v : sqlval) : sqlerror + sqlval :=
  match t, v with
  | BOOLEAN, VBool b => inr (VBool b)
  | BOOLEAN, VInt n | BOOLEAN, VBigint n =>
      match boolin_of_integer_text n with
      | inl e => inl e
      | inr b => inr (VBool b)
      end
  | INTEGER, VInt n | INTEGER, VBigint n => inr (VInt n)
  | BIGINT, VInt n | BIGINT, VBigint n => inr (VBigint n)
  | INTEGER, VBool _ | BIGINT, VBool _ => inl invalid_text_representation
  end.

(** The operator [>]: PostgreSQL has [boolean > boolean] and the integer
    comparisons, and no implicit cast between [boolean] and the integer
    types, so [boolean > integer] does not resolve. *)
Definition op_gt (a b : sqlval) : sqlerror + sqlval :=
  match a, b with
  | VBool x, VBool y => inr (VBool (x && negb y))
  | VInt x, VInt y | VInt x, VBigint y
  | VBigint x, VInt y | VBigint x, VBigint y => inr (VBool (y <? x))
  | _, _ => inl undefined_function
  end.

(** [WHERE id = p_room_id AND current_phase = p_current_phase]; a NULL
    [current_phase] compares to NULL, which does not select the row. *)
Definition phase_matches (p_room_id : uuid) (p_current_phase : string)
    (r : room_row) : bool :=
  eqb_uuid (id r) p_room_id && bool_decide (current_phase r = Some p_current_phase).

(** [UPDATE debate_rooms SET current_phase = p_next_phase WHERE ...] *)
Definition update_phase (p_room_id : uuid) (p_current_phase p_next_phase : string)
    (rooms : list room_row) : list room_row :=
  update_where (phase_matches p_room_id p_current_phase)
    (λ r, {| id := id r; current_phase := Some p_next_phase |}) rooms.

(** The function body.  It yields the table after the call and either the
    BOOLEAN it returns or the error it raises; an error aborts the call,
    and with it the UPDATE the call made. *)
Definition advance_debate_phase (rooms : list room_row) (p_room_id : uuid)
    (p_current_phase p_next_phase : string) : list room_row * (sqlerror + bool) :=
  (* DECLARE v_updated BOOLEAN := FALSE; *)
  let v_updated := VBool false in
  (* UPDATE ... *)
  let rooms' := update_phase p_room_id p_current_phase p_next_phase rooms in
  let ROW_COUNT := VBigint (row_count (phase_matches p_room_id p_current_phase) rooms) in
  (* GET DIAGNOSTICS v_updated = ROW_COUNT; *)
  match assign (type_of v_updated) ROW_COUNT with
  | inl e => (rooms, inl e)
  | inr v_updated =>
      (* RETURN v_updated > 0; *)
      match op_gt v_updated (VInt 0) with
      | inl e => (rooms, inl e)
      | inr v =>
          match assign BOOLEAN v with
          | inr (VBool b) => (rooms', inr b)
          | inr _ => (rooms, inl invalid_text_representation)
          | inl e => (rooms, inl e)
          end
      end
  end.

End PhaseSql.

(* ===================================================================== *)
(** * The pause between speeches ([TransitionCountdown],                   *)
(**   [src/unnamed/part_007])                                              *)
(* ===================================================================== *)

Module TransitionCountdown.

(** The three modes the component knows, and any other value of the
    [mode] prop (the live room passes 'audio' and 'visual'). *)
Inductive TransitionMode := mode_tick | mode_auto | mode_both | mode_other.

#[global] Instance TransitionMode_eq_dec : EqDecision TransitionMode.
Proof. solve_decision. Defined.

(** Props [isVisible] and [mode], the state of the component, whether the
    500 ms timer of the auto mode is pending, and the number of calls of
    [onComplete]. *)
Record State := {
  isVisible : bool;
  mode : TransitionMode;
  confirmed : bool;
  countdown : Z;
  isCountingDown : bool;
  autoStartTimer : bool;
  completions : nat;
}.

(** The effect on [isVisible] and [mode]. *)
Definition reset (s : State) : State :=
  if isVisible s then
    {| isVisible := true; mode := mode s; confirmed := false; countdown := 10;
       isCountingDown := false;
       autoStartTimer := match mode s with mode_auto => true | _ => false end;
       completions := completions s |}
  else
    {| isVisible := false; mode := mode s; confirmed := confirmed s;
       countdown := countdown s; isCountingDown := isCountingDown s;
       autoStartTimer := false; completions := completions s |}.

Definition set_counting (c : bool) (s : State) : State :=
  {| isVisible := isVisible s; mode := mode s; confirmed := confirmed s;
     countdown := countdown s; isCountingDown := c;
     autoStartTimer := autoStartTimer s; completions := completions s |}.

Definition onComplete (s : State) : State :=
  {| isVisible := isVisible s; mode := mode s; confirmed := confirmed s;
     countdown := countdown s; isCountingDown := isCountingDown s;
     autoStartTimer := autoStartTimer s; completions := S (completions s) |}.

(** The callback of the one-second interval, which is armed while
    [isCountingDown] holds and [countdown] is above 0, shown or not. *)
Definition interval (s : State) : State :=
  if isCountingDown s && (0 <? countdown s) then
    if countdown s <=? 1
    then {| isVisible := isVisible s; mode := mode s; confirmed := confirmed s;
            countdown := 0; isCountingDown := false;
            autoStartTimer := autoStartTimer s; completions := S (completions s) |}
    else {| isVisible := isVisible s; mode := mode s; confirmed := confirmed s;
            countdown := countdown s - 1; isCountingDown := isCountingDown s;
            autoStartTimer := autoStartTimer s; completions := completions s |}
  else s.

Definition handleConfirm (s : State) : State :=
  let s := {| isVisible := isVisible s; mode := mode s; confirmed := true;
              countdown := countdown s; isCountingDown := isCountingDown s;
              autoStartTimer := autoStartTimer s; completions := completions s |} in
  match mode s with
  | mode_tick => onComplete s
  | mode_both => set_counting true s
  | mode_auto | mode_other => s
  end.

Definition handleSkipCountdown (s : State) : State := onComplete (set_counting false s).

Inductive Event :=
  | Show            (* the parent passes [isVisible = true] *)
  | Hide            (* the parent passes [isVisible = false] *)
  | AutoStart       (* the 500 ms timer of the auto mode fires *)
  | Tick            (* a second passes *)
  | Confirm         (* the Start / I'm Ready button *)
  | SkipCountdown   (* the Skip countdown button *)
  | SkipToNext.     (* the Skip to next round button of the auto mode *)

#[global] Instance Event_eq_dec : EqDecision Event.
Proof. solve_decision. Defined.

(** One event; a button acts only while the component renders it. *)
Definition handle (e : Event) (s : State) : State :=
  match e with
  | Show =>
      if isVisible s then s
      else reset {| isVisible := true; mode := mode s; confirmed := confirmed s;
                    countdown := countdown s; isCountingDown := isCountingDown s;
                    autoStartTimer := autoStartTimer s; completions := completions s |}
  | Hide =>
      if isVisible s
      then reset {| isVisible := false; mode := mode s; confirmed := confirmed s;
                    countdown := countdown s; isCountingDown := isCountingDown s;
                    autoStartTimer := autoStartTimer s; completions := completions s |}
      else s
  | AutoStart =>
      if autoStartTimer s
      then {| isVisible := isVisible s; mode := mode s; confirmed := confirmed s;
              countdown := countdown s; isCountingDown := true;
              autoStartTimer := false; completions := completions s |}
      else s
  | Tick => interval s
  | Confirm =>
      if isVisible s && negb (isCountingDown s) &&
         match mode s with
         | mode_tick => true
         | mode_both => negb (confirmed s)
         | mode_auto | mode_other => false
         end
      then handleConfirm s else s
  | SkipCountdown =>
      if isVisible s && isCountingDown s then handleSkipCountdown s else s
  | SkipToNext =>
      if isVisible s && negb (isCountingDown s) &&
         match mode s with mode_auto => true | _ => false end
      then onComplete s else s
  end.

Definition run (evs : list Event) (s : State) : State :=
  foldl (λ s e, handle e s) s evs.

(** The component as mounted with these props. *)
Definition mount (visible : bool) (m : TransitionMode) : State :=
  reset {| isVisible := visible; mode := m; confirmed := false; countdown := 10;
           isCountingDown := false; autoStartTimer := false; completions := 0 |}.

End TransitionCountdown.

(* ===================================================================== *)
(** * The human-vs-human room: phase handlers ([src/HeroSection.tsx])      *)
(* ===================================================================== *)

Module LiveDebateRoom.

Inductive DebatePhase :=
  | loading
  | waiting_for_opponent
  | setup
  | prep
  | prop_constructive
  | opp_constructive
  | prop_rebuttal
  | opp_rebuttal
  | prop_closing
  | opp_closing
  | transition
  | debate_complete
  | judging
  | results.

#[global] Instance DebatePhase_eq_dec : EqDecision DebatePhase.
Proof. solve_decision. Defined.

(** The string literal of each member of the union type. *)
Definition phase_name (p : DebatePhase) : string :=
  match p with
  | loading => "loading"
  | waiting_for_opponent => "waiting_for_opponent"
  | setup => "setup"
  | prep => "prep"
  | prop_constructive => "prop_constructive"
  | opp_constructive => "opp_constructive"
  | prop_rebuttal => "prop_rebuttal"
  | opp_rebuttal => "opp_rebuttal"
  | prop_closing => "prop_closing"
  | opp_closing => "opp_closing"
  | transition => "transition"
  | debate_complete => "debate_complete"
  | judging => "judging"
  | results => "results"
  end.

(** [s.includes(sub)] and [s.startsWith(pre)] *)
Definition includes (sub s : string) : bool :=
  match String.index 0 sub s with Some _ => true | None => false end.
Definition startsWith (pre s : string) : bool := String.prefix pre s.

Inductive HvHFormat := rapid | standard | extended.

Record speech_times := {
  t_prep : Z;
  t_constructive : Z;
  t_rebuttal : Z;
  t_closing : Z;
}.

Definition FORMAT_TIMES (f : HvHFormat) : speech_times :=
  match f with
  | rapid => {| t_prep := 30; t_constructive := 60; t_rebuttal := 60; t_closing := 60 |}
  | standard => {| t_prep := 60; t_constructive := 180; t_rebuttal := 120; t_closing := 90 |}
  | extended => {| t_prep := 900; t_constructive := 420; t_rebuttal := 240; t_closing := 180 |}
  end.

Definition SPEECH_PHASES : list DebatePhase :=
  [ prop_constructive; opp_constructive;
    prop_rebuttal; opp_rebuttal;
    prop_closing; opp_closing ].

(** [Array.prototype.indexOf]: the first index, or -1. *)
Fixpoint indexOf (x : DebatePhase) (l : list DebatePhase) : Z :=
  match l with
  | [] => -1
  | y :: l' =>
      if bool_decide (y = x) then 0
      else let i := indexOf x l' in if i <? 0 then -1 else i + 1
  end.

Definition getSpeechTime (hvhFormat : HvHFormat) (phaseToCheck : DebatePhase) : Z :=
  let times := FORMAT_TIMES hvhFormat in
  let n := phase_name phaseToCheck in
  if includes "constructive" n then t_constructive times
  else if includes "rebuttal" n then t_rebuttal times
  else if includes "closing" n then t_closing times
  else t_constructive times.

Definition getNextPhase (currentPhase : DebatePhase) : option DebatePhase :=
  let currentIndex := indexOf currentPhase SPEECH_PHASES in
  if (0 <=? currentIndex) && (currentIndex <? Z.of_nat (length SPEECH_PHASES) - 1)
  then SPEECH_PHASES !! Z.to_nat (currentIndex + 1)
  else None.

Definition getSpeechLabel (p : DebatePhase) : string :=
  let n := phase_name p in
  let speaker := if startsWith "prop_" n then "Proposition" else "Opposition" in
  let type := if includes "constructive" n then "Constructive"
              else if includes "rebuttal" n then "Rebuttal" else "Closing" in
  speaker +:+ " " +:+ type.

Inductive speaker := you | opponent | system.

Record TranscriptEntry := {
  te_speaker : speaker;
  te_text : string;
  te_phase : DebatePhase;
}.

(** Messages a client puts on the [room-<id>] broadcast channel. *)
Inductive broadcast :=
  | phase_change (userId : uuid) (p : DebatePhase)
  | user_ready (userId : uuid)
  | transcript_msg (userId : uuid) (text : string) (p : DebatePhase).

(** The value of [transitionMode]: the setup screen offers these three. *)
Inductive TransitionAlerts := alert_audio | alert_visual | alert_both.

(** The [mode] prop as [TransitionCountdown] reads it: of the three values
    it knows 'both' only. *)
Definition mode_prop (a : TransitionAlerts) : TransitionCountdown.TransitionMode :=
  match a with
  | alert_both => TransitionCountdown.mode_both
  | alert_audio | alert_visual => TransitionCountdown.mode_other
  end.

(** The React state of one client of the room, with the messages it has
    sent so far and the [TransitionCountdown] it has mounted, if any. *)
Record State := {
  userId : uuid;
  isUserProposition : bool;
  hvhFormat : HvHFormat;
  micEnabled : bool;
  voiceSupported : bool;
  phase : DebatePhase;
  timeLeft : Z;
  isTimerRunning : bool;
  showTransition : bool;
  nextPhaseAfterTransition : option DebatePhase;
  transcript : list TranscriptEntry;
  isRecording : bool;
  showPredictionModal : bool;
  sent : list broadcast;
  transitionMode : TransitionAlerts;
  overlay : option TransitionCountdown.State;
}.

Definition set_phase (p : DebatePhase) (s : State) : State :=
  {| userId := userId s; isUserProposition := isUserProposition s;
     hvhFormat := hvhFormat s; micEnabled := micEnabled s;
     voiceSupported := voiceSupported s; phase := p; timeLeft := timeLeft s;
     isTimerRunning := isTimerRunning s; showTransition := showTransition s;
     nextPhaseAfterTransition := nextPhaseAfterTransition s;
     transcript := transcript s; isRecording := isRecording s;
     showPredictionModal := showPredictionModal s; sent := sent s;
     transitionMode := transitionMode s; overlay := overlay s |}.

Definition set_timer (t : Z) (running : bool) (s : State) : State :=
  {| userId := userId s; isUserProposition := isUserProposition s;
     hvhFormat := hvhFormat s; micEnabled := micEnabled s;
     voiceSupported := voiceSupported s; phase := phase s; timeLeft := t;
     isTimerRunning := running; showTransition := showTransition s;
     nextPhaseAfterTransition := nextPhaseAfterTransition s;
     transcript := transcript s; isRecording := isRecording s;
     showPredictionModal := showPredictionModal s; sent := sent s;
     transitionMode := transitionMode s; overlay := overlay s |}.

(** The element [{showTransition && nextPhaseAfterTransition &&
    (<TransitionCountdown ... />)}]: the overlay is mounted while both
    hold and unmounted otherwise.  The room passes it [onComplete] and
    [mode] and no [isVisible], which the overlay therefore reads as
    false. *)
Definition render_overlay (show : bool) (next : option DebatePhase) (s : State)
    : option TransitionCountdown.State :=
  if show && bool_decide (is_Some next) then
    match overlay s with
    | Some o => Some o
    | None => Some (TransitionCountdown.mount false (mode_prop (transitionMode s)))
    end
  else None.

(** [setShowTransition] and [setNextPhaseAfterTransition], with the render
    that follows. *)
Definition set_transition (show : bool) (next : option DebatePhase) (s : State) : State :=
  {| userId := userId s; isUserProposition := isUserProposition s;
     hvhFormat := hvhFormat s; micEnabled := micEnabled s;
     voiceSupported := voiceSupported s; phase := phase s; timeLeft := timeLeft s;
     isTimerRunning := isTimerRunning s; showTransition := show;
     nextPhaseAfterTransition := next;
     transcript := transcript s; isRecording := isRecording s;
     showPredictionModal := showPredictionModal s; sent := sent s;
     transitionMode := transitionMode s; overlay := render_overlay show next s |}.

Definition set_recording (r : bool) (s : State) : State :=
  {| userId := userId s; isUserProposition := isUserProposition s;
     hvhFormat := hvhFormat s; micEnabled := micEnabled s;
     voiceSupported := voiceSupported s; phase := phase s; timeLeft := timeLeft s;
     isTimerRunning := isTimerRunning s; showTransition := showTransition s;
     nextPhaseAfterTransition := nextPhaseAfterTransition s;
     transcript := transcript s; isRecording := r;
     showPredictionModal := showPredictionModal s; sent := sent s;
     transitionMode := transitionMode s; overlay := overlay s |}.

Definition set_modal (m : bool) (s : State) : State :=
  {| userId := userId s; isUserProposition := isUserProposition s;
     hvhFormat := hvhFormat s; micEnabled := micEnabled s;
     voiceSupported := voiceSupported s; phase := phase s; timeLeft := timeLeft s;
     isTimerRunning := isTimerRunning s; showTransition := showTransition s;
     nextPhaseAfterTransition := nextPhaseAfterTransition s;
     transcript := transcript s; isRecording := isRecording s;
     showPredictionModal := m; sent := sent s;
     transitionMode := transitionMode s; overlay := overlay s |}.

(** The state of the mounted overlay changes. *)
Definition set_overlay (o : option TransitionCountdown.State) (s : State) : State :=
  {| userId := userId s; isUserProposition := isUserProposition s;
     hvhFormat := hvhFormat s; micEnabled := micEnabled s;
     voiceSupported := voiceSupported s; phase := phase s; timeLeft := timeLeft s;
     isTimerRunning := isTimerRunning s; showTransition := showTransition s;
     nextPhaseAfterTransition := nextPhaseAfterTransition s;
     transcript := transcript s; isRecording := isRecording s;
     showPredictionModal := showPredictionModal s; sent := sent s;
     transitionMode := transitionMode s; overlay := o |}.

(** The overlay receives another [mode]: its effect on [isVisible] and
    [mode] runs again. *)
Definition pass_mode (m : TransitionCountdown.TransitionMode)
    (o : TransitionCountdown.State) : TransitionCountdown.State :=
  if bool_decide (TransitionCountdown.mode o = m) then o
  else TransitionCountdown.reset
         {| TransitionCountdown.isVisible := TransitionCountdown.isVisible o;
            TransitionCountdown.mode := m;
            TransitionCountdown.confirmed := TransitionCountdown.confirmed o;
            TransitionCountdown.countdown := TransitionCountdown.countdown o;
            TransitionCountdown.isCountingDown := TransitionCountdown.isCountingDown o;
            TransitionCountdown.autoStartTimer := TransitionCountdown.autoStartTimer o;
            TransitionCountdown.completions := TransitionCountdown.completions o |}.

(** [setTransitionMode] *)
Definition set_mode (a : TransitionAlerts) (s : State) : State :=
  {| userId := userId s; isUserProposition := isUserProposition s;
     hvhFormat := hvhFormat s; micEnabled := micEnabled s;
     voiceSupported := voiceSupported s; phase := phase s; timeLeft := timeLeft s;
     isTimerRunning := isTimerRunning s; showTransition := showTransition s;
     nextPhaseAfterTransition := nextPhaseAfterTransition s;
     transcript := transcript s; isRecording := isRecording s;
     showPredictionModal := showPredictionModal s; sent := sent s;
     transitionMode := a; overlay := pass_mode (mode_prop a) <$> overlay s |}.

(** [addTranscriptEntry]: the entry carries the phase of the render in
    which the calling handler was created. *)
Definition addTranscriptEntry (rendered : DebatePhase) (who : speaker) (text : string)
    (s : State) : State :=
  {| userId := userId s; isUserProposition := isUserProposition s;
     hvhFormat := hvhFormat s; micEnabled := micEnabled s;
     voiceSupported := voiceSupported s; phase := phase s; timeLeft := timeLeft s;
     isTimerRunning := isTimerRunning s; showTransition := showTransition s;
     nextPhaseAfterTransition := nextPhaseAfterTransition s;
     transcript := transcript s ++ [ {| te_speaker := who; te_text := text;
                                        te_phase := rendered |} ];
     isRecording := isRecording s;
     showPredictionModal := showPredictionModal s; sent := sent s;
     transitionMode := transitionMode s; overlay := overlay s |}.

(** [signalingChannelRef.current.send({type: 'broadcast', ...})] *)
Definition send (m : broadcast) (s : State) : State :=
  {| userId := userId s; isUserProposition := isUserProposition s;
     hvhFormat := hvhFormat s; micEnabled := micEnabled s;
     voiceSupported := voiceSupported s; phase := phase s; timeLeft := timeLeft s;
     isTimerRunning := isTimerRunning s; showTransition := showTransition s;
     nextPhaseAfterTransition := nextPhaseAfterTransition s;
     transcript := transcript s; isRecording := isRecording s;
     showPredictionModal := showPredictionModal s; sent := sent s ++ [m];
     transitionMode := transitionMode s; overlay := overlay s |}.

Definition broadcastPhaseChange (newPhase : DebatePhase) (s : State) : State :=
  send (phase_change (userId s) newPhase) s.

Definition startPhase (newPhase : DebatePhase) (s : State) : State :=
  let rendered := phase s in
  let s := set_phase newPhase s in
  let s := set_timer (getSpeechTime (hvhFormat s) newPhase) true s in
  let s := addTranscriptEntry rendered system (getSpeechLabel newPhase +:+ " begins") s in
  let isNextUserTurn :=
    if isUserProposition s then startsWith "prop_" (phase_name newPhase)
    else startsWith "opp_" (phase_name newPhase) in
  let s := if isNextUserTurn && micEnabled s && voiceSupported s
           then set_recording true s else s in
  broadcastPhaseChange newPhase s.

Definition handleTransitionComplete (s : State) : State :=
  let next := nextPhaseAfterTransition s in
  let s := set_transition false next s in
  match next with
  | Some p => set_transition false None (startPhase p s)
  | None => s
  end.

Definition handlePhaseEnd (s : State) : State :=
  let rendered := phase s in
  let s := if isRecording s then set_recording false s else s in
  let s := set_timer (timeLeft s) false s in
  match getNextPhase rendered with
  | Some nextPhase => set_transition true (Some nextPhase) s
  | None =>
      let s := set_phase debate_complete s in
      let s := addTranscriptEntry rendered system "Debate complete!" s in
      set_modal true s
  end.

(** The double quote character. *)
Definition dquote : string := String (Ascii.ascii_of_nat 34) EmptyString.

Definition handlePrepComplete (topic : string) (s : State) : State :=
  let rendered := phase s in
  let s := addTranscriptEntry rendered system
             ("Motion: " +:+ dquote +:+ topic +:+ dquote) s in
  let s := addTranscriptEntry rendered system
             ("You are arguing " +:+
              (if isUserProposition s then "FOR (Proposition)" else "AGAINST (Opposition)")) s in
  set_transition true (Some prop_constructive) s.

(** [handleConnectAndStart]: [mediaOk] is whether [initializeWebRTC]
    returned a peer connection. *)
Definition handleConnectAndStart (mediaOk : bool) (s : State) : State :=
  if mediaOk then set_phase prep (send (user_ready (userId s)) s) else s.

(** The one-second timer callback. *)
Definition tick (s : State) : State :=
  if timeLeft s <=? 1 then set_timer 0 (isTimerRunning (handlePhaseEnd s)) (handlePhaseEnd s)
  else set_timer (timeLeft s - 1) (isTimerRunning s) s.

(** The handlers of the broadcast channel: a transcript line of the other
    user is added; a [phase_change] of the other user is logged to the
    console and nothing else; [user_ready] may start the WebRTC offer,
    which is no part of this state. *)
Definition on_broadcast (m : broadcast) (s : State) : State :=
  match m with
  | transcript_msg from text _ =>
      if bool_decide (from ≠ userId s) then addTranscriptEntry (phase s) opponent text s else s
  | phase_change from p => s
  | user_ready from => s
  end.

(** Something happens to the mounted overlay: a timer of it fires or one
    of its buttons is clicked.  The room never passes [isVisible], so the
    overlay is neither shown nor hidden by it.  A call of [onComplete] by
    the overlay is a call of [handleTransitionComplete]. *)
Definition on_overlay (e : TransitionCountdown.Event) (s : State) : State :=
  match overlay s with
  | None => s
  | Some o =>
      match e with
      | TransitionCountdown.Show | TransitionCountdown.Hide => s
      | _ =>
          let o' := TransitionCountdown.handle e o in
          let s := set_overlay (Some o') s in
          if Nat.ltb (TransitionCountdown.completions o) (TransitionCountdown.completions o')
          then handleTransitionComplete s else s
      end
  end.

(** What can happen to a client.  [allConnected] says that the room has
    at least two human participants and all of them are connected;
    [roomLive] that the fetched room has status live. *)
Inductive Event :=
  | RoomFetched (allConnected roomLive : bool) (* [fetchRoom], on mount *)
  | ParticipantsChanged (allConnected : bool)  (* change feed of [debate_participants] *)
  | SetTransitionMode (a : TransitionAlerts)   (* an alerts button of the setup screen *)
  | ConnectAndStart (mediaOk : bool)           (* the connect button *)
  | PrepComplete (topic : string)              (* [PrepTimer] completes or is skipped *)
  | Countdown (e : TransitionCountdown.Event)  (* an event of the mounted overlay *)
  | Tick                                       (* the one-second interval *)
  | RequestJudgment                            (* a button of the prediction modal *)
  | JudgmentReturned                           (* the judge answered or failed *)
  | Received (m : broadcast).                  (* a message of the other client *)

(** One event, under the condition that makes its handler reachable: the
    effect that runs it, or the element that renders its control.  The
    room is fetched once, while the component still shows [loading]: the
    effect depends on the room id and the user only, which are taken as
    fixed while the component is mounted. *)
Definition handle (e : Event) (s : State) : State :=
  match e with
  | RoomFetched allConnected roomLive =>
      if bool_decide (phase s = loading) then
        if allConnected then set_phase setup s
        else if roomLive then set_phase setup s
        else set_phase waiting_for_opponent s
      else s
  | ParticipantsChanged allConnected =>
      if allConnected && bool_decide (phase s = waiting_for_opponent)
      then set_phase setup s else s
  | SetTransitionMode a =>
      if bool_decide (phase s = setup) then set_mode a s else s
  | ConnectAndStart mediaOk =>
      if bool_decide (phase s = setup) then handleConnectAndStart mediaOk s else s
  | PrepComplete topic =>
      if bool_decide (phase s = prep) then handlePrepComplete topic s else s
  | Countdown e => on_overlay e s
  | Tick => if isTimerRunning s then tick s else s
  | RequestJudgment =>
      if showPredictionModal s then set_phase judging (set_modal false s) else s
  | JudgmentReturned =>
      if bool_decide (phase s = judging) then set_phase results s else s
  | Received m => on_broadcast m s
  end.

Definition run (evs : list Event) (s : State) : State :=
  foldl (λ s e, handle e s) s evs.

(** The phases a client goes through: its phase after each event that
    changed it. *)
Fixpoint phases_seen (evs : list Event) (s : State) : list DebatePhase :=
  match evs with
  | [] => []
  | e :: evs' =>
      let s' := handle e s in
      if bool_decide (phase s' = phase s) then phases_seen evs' s'
      else phase s' :: phases_seen evs' s'
  end.

Definition is_speech (p : DebatePhase) : bool := bool_decide (p ∈ SPEECH_PHASES).

(** A client that has just mounted the component. *)
Definition initial (uid : uuid) (prop : bool) (f : HvHFormat) (mic voice : bool) : State :=
  {| userId := uid; isUserProposition := prop; hvhFormat := f;
     micEnabled := mic; voiceSupported := voice;
     phase := loading; timeLeft := 0; isTimerRunning := false;
     showTransition := false; nextPhaseAfterTransition := None;
     transcript := []; isRecording := false; showPredictionModal := false;
     sent := []; transitionMode := alert_both; overlay := None |}.

End LiveDebateRoom.

(* ===================================================================== *)
(** * The queue: [useMatchmaking] and the partial unique index             *)
(* ===================================================================== *)

Module Queue.

Inductive QueueStatus := waiting | matched | cancelled | expired.
Inductive OpponentType := human_only | ai_only | human_then_ai.
Inductive MatchMode := ranked | unranked.
Inductive RoomStatus := reserved | live | completed | abandoned.

#[global] Instance QueueStatus_eq_dec : EqDecision QueueStatus.
Proof. solve_decision. Defined.
#[global] Instance OpponentType_eq_dec : EqDecision OpponentType.
Proof. solve_decision. Defined.

(** Rows of [match_queue_entries]; times are milliseconds. *)
Record QueueEntry := {
  id : uuid;
  user_id : uuid;
  format : string;
  mode : MatchMode;
  opponent_type : OpponentType;
  elo : Z;
  status : QueueStatus;
  joined_at : Z;
  last_heartbeat_at : Z;
  matched_at : option Z;
  room_id : option uuid;
}.

(** Rows of [debate_rooms] and [debate_participants], as [createAIMatch]
    writes them. *)
Record Room := {
  r_id : uuid;
  r_format : string;
  r_mode : MatchMode;
  r_status : RoomStatus;
  is_ai_opponent : bool;
  ai_model : option string;
  ai_difficulty : option string;
  started_at : option Z;
}.

Record Participant := {
  p_room_id : uuid;
  p_user_id : option uuid;
  is_ai : bool;
  role : string;
  speaking_order : Z;
  connected_at : option Z;
}.

Record Store := {
  match_queue_entries : list QueueEntry;
  debate_rooms : list Room;
  debate_participants : list Participant;
}.

Definition is_waiting (e : QueueEntry) : bool := bool_decide (status e = waiting).

(** ** The constraints of [match_queue_entries] *)

(** [id UUID PRIMARY KEY] *)
Definition pkey_ok (t : list QueueEntry) : bool := bool_decide (NoDup (map id t)).

(** [CREATE UNIQUE INDEX one_active_queue_per_user_waiting
     ON match_queue_entries (user_id) WHERE status = 'waiting'] *)
Definition one_active_queue_per_user_waiting (t : list QueueEntry) : bool :=
  bool_decide (NoDup (map user_id (List.filter is_waiting t))).

Definition constraints_ok (t : list QueueEntry) : bool :=
  pkey_ok t && one_active_queue_per_user_waiting t.

(** A statement on the table either yields the new table or is rejected
    by a constraint and changes nothing. *)
Definition guarded (t' : list QueueEntry) : option (list QueueEntry) :=
  if constraints_ok t' then Some t' else None.

Definition insert (e : QueueEntry) (t : list QueueEntry) : option (list QueueEntry) :=
  guarded (t ++ [e]).

Definition update (p : QueueEntry → bool) (f : QueueEntry → QueueEntry)
    (t : list QueueEntry) : option (list QueueEntry) :=
  guarded (update_where p f t).

Definition delete (p : QueueEntry → bool) (t : list QueueEntry) : list QueueEntry :=
  delete_where p t.

(** The statements the clients issue, and a run of them against the
    table; a rejected statement leaves the table as it was. *)
Inductive statement :=
  | Insert (e : QueueEntry)
  | Update (p : QueueEntry → bool) (f : QueueEntry → QueueEntry)
  | Delete (p : QueueEntry → bool).

Definition exec (st : statement) (t : list QueueEntry) : list QueueEntry :=
  match st with
  | Insert e => default t (insert e t)
  | Update p f => default t (update p f t)
  | Delete p => delete p t
  end.

Definition exec_all (sts : list statement) (t : list QueueEntry) : list QueueEntry :=
  foldl (λ t st, exec st t) t sts.

(** ** [joinQueue] *)

Record MatchSettings := {
  ms_format : string;
  ms_mode : MatchMode;
  ms_opponentType : OpponentType;
}.

Definition AI_FALLBACK_TIMEOUT : Z := 30000.
Definition HEARTBEAT_INTERVAL : Z := 5000.

(** [.delete().eq('user_id', user.id).eq('status', 'waiting')] *)
Definition waiting_entry_of (user : uuid) (e : QueueEntry) : bool :=
  eqb_uuid (user_id e) user && is_waiting e.

(** The row [joinQueue] inserts; [new_id] is the key the store generates
    and [now] the time of the insert ([DEFAULT now()]). *)
Definition new_entry (new_id user : uuid) (rating now : Z) (settings : MatchSettings)
    : QueueEntry :=
  {| id := new_id; user_id := user; format := ms_format settings;
     mode := ms_mode settings; opponent_type := ms_opponentType settings;
     elo := rating; status := waiting; joined_at := now;
     last_heartbeat_at := now; matched_at := None; room_id := None |}.

(** The AI-fallback timer [joinQueue] arms: the entry it watches and its
    delay, when the opponent preference asks for one. *)
Definition fallback_timer (settings : MatchSettings) (entry : QueueEntry)
    : option (uuid * Z) :=
  if bool_decide (ms_opponentType settings = human_then_ai)
     || bool_decide (ms_opponentType settings = ai_only)
  then Some (id entry,
             if bool_decide (ms_opponentType settings = ai_only) then 0
             else AI_FALLBACK_TIMEOUT)
  else None.

(** The queue part of [joinQueue]: the table after the call, and the
    inserted entry with its timer, or [None] when the insert failed (the
    [catch] branch).  Between the insert and the timer the hook invokes
    the [matchmaking-worker] function, which is not among the sources. *)
Definition joinQueue (new_id user : uuid) (rating now : Z) (settings : MatchSettings)
    (t : list QueueEntry) : list QueueEntry * option (QueueEntry * option (uuid * Z)) :=
  let t1 := delete (waiting_entry_of user) t in
  let entry := new_entry new_id user rating now settings in
  match insert entry t1 with
  | None => (t1, None)
  | Some t2 => (t2, Some (entry, fallback_timer settings entry))
  end.

(** [sendHeartbeat] and [cancelQueue] *)
Definition sendHeartbeat (entryId : uuid) (now : Z) : statement :=
  Update (λ e, eqb_uuid (id e) entryId && is_waiting e)
    (λ e, {| id := id e; user_id := user_id e; format := format e; mode := mode e;
             opponent_type := opponent_type e; elo := elo e; status := status e;
             joined_at := joined_at e; last_heartbeat_at := now;
             matched_at := matched_at e; room_id := room_id e |}).

Definition cancelQueue (entryId : uuid) : statement :=
  Delete (λ e, eqb_uuid (id e) entryId && is_waiting e).

(** ** The AI fallback *)

(** [.update({status: 'matched', matched_at, room_id})] *)
Definition mark_matched (room : uuid) (now : Z) (e : QueueEntry) : QueueEntry :=
  {| id := id e; user_id := user_id e; format := format e; mode := mode e;
     opponent_type := opponent_type e; elo := elo e; status := matched;
     joined_at := joined_at e; last_heartbeat_at := last_heartbeat_at e;
     matched_at := Some now; room_id := Some room |}.

(** The policy "Participants can view rooms" of [debate_rooms]:
    [is_room_participant(id, auth.uid()) OR is_admin()].  [admin] says
    whether [user_roles] gives the user the role admin. *)
Definition can_view_room (user : uuid) (admin : bool) (s : Store) (room : uuid) : bool :=
  existsb (λ p, eqb_uuid (p_room_id p) room && bool_decide (p_user_id p = Some user))
          (debate_participants s)
  || admin.

(** [createAIMatch(entry)] for the logged-in [user]: [new_room] is the key
    the store gives the inserted room.  The room is inserted with
    [.insert({...}).select().single()], which makes the store return the
    new row: the policy for reading rooms must admit it, and the user is
    not yet a participant of it, so for anybody but an admin the statement
    is rejected, [roomError] is thrown and the [catch] only sets the error
    text.  The two participant rows pass their insert policy
    ([user_id = auth.uid() OR is_ai]).  The last statement selects the
    queue entry by [id] alone; the update policy of the table keeps it to
    the user's own rows. *)
Definition createAIMatch (user : uuid) (admin : bool) (new_room : uuid) (now : Z)
    (entry : QueueEntry) (s : Store) : Store :=
  let room :=
    {| r_id := new_room; r_format := format entry; r_mode := mode entry;
       r_status := live; is_ai_opponent := true;
       ai_model := Some "rebutly-ai-v1"; ai_difficulty := Some "adaptive";
       started_at := Some now |} in
  if negb (can_view_room user admin s (r_id room)) then s else
  let human :=
    {| p_room_id := r_id room; p_user_id := Some user; is_ai := false;
       role := if bool_decide (format entry = "LD") then "affirmative" else "proposition";
       speaking_order := 1; connected_at := Some now |} in
  let ai :=
    {| p_room_id := r_id room; p_user_id := None; is_ai := true;
       role := if bool_decide (format entry = "LD") then "negative" else "opposition";
       speaking_order := 2; connected_at := None |} in
  {| match_queue_entries :=
       exec (Update (λ e, eqb_uuid (id e) (id entry) && eqb_uuid (user_id e) user)
                    (mark_matched (r_id room) now))
            (match_queue_entries s);
     debate_rooms := debate_rooms s ++ [room];
     debate_participants := debate_participants s ++ [human; ai] |}.

(** The first half of the timer callback: the re-read of the entry
    ([.select('*').eq('id', entry.id).single()]). *)
Definition reread (entryId : uuid) (s : Store) : option QueueEntry :=
  single (select_where (λ e, eqb_uuid (id e) entryId) (match_queue_entries s)).

(** The second half: [createAIMatch] on the entry as it was read. *)
Definition fallback_act (user : uuid) (admin : bool) (new_room : uuid) (now : Z)
    (currentEntry : option QueueEntry) (s : Store) : Store :=
  match currentEntry with
  | Some e => if is_waiting e then createAIMatch user admin new_room now e s else s
  | None => s
  end.

(** The timer callback when nothing else touches the store while it runs. *)
Definition fallback_fires (user : uuid) (admin : bool) (new_room entryId : uuid) (now : Z)
    (s : Store) : Store :=
  fallback_act user admin new_room now (reread entryId s) s.

(** Modelled from the spec: the Matcher's per-entry transition, "from
    waiting to matched conditioned on each still being waiting (a
    compare-and-swap per entry)", recording the session matched with.  The
    [matchmaking-worker] function the clients invoke is not among the
    sources.  The flag tells whether the entry was claimed. *)
Definition matcher_claims (entryId room : uuid) (now : Z) (s : Store) : Store * bool :=
  let p := λ e, eqb_uuid (id e) entryId && is_waiting e in
  ({| match_queue_entries :=
        exec (Update p (mark_matched room now)) (match_queue_entries s);
      debate_rooms := debate_rooms s;
      debate_participants := debate_participants s |},
   0 <? row_count p (match_queue_entries s)).

End Queue.

(* ===================================================================== *)
(** * The live room: whose turn it is, who creates the offer               *)
(* ===================================================================== *)

Module LiveDebateRoomView.
Import LiveDebateRoom.

(** [isUserTurn] *)
Definition isUserTurn (isUserProposition : bool) (phase : DebatePhase) : bool :=
  if isUserProposition then startsWith "prop_" (phase_name phase)
  else startsWith "opp_" (phase_name phase).

(** ** Who creates the WebRTC offer *)

(** [Array.prototype.sort()] without a comparator, on strings of ASCII
    characters (UUIDs): ascending order of the code units. *)
Fixpoint insert_sorted (x : string) (l : list string) : list string :=
  match l with
  | [] => [x]
  | y :: l' => if String.leb x y then x :: l else y :: insert_sorted x l'
  end.

Definition sort (l : list string) : list string := foldr insert_sorted [] l.

(** [participants.filter(p => p.user_id).map(p => p.user_id!)], on the
    [user_id] column of the participants the client holds. *)
Definition userIds (participants : list (option uuid)) : list uuid :=
  omap (λ u, match u with
             | Some u => if bool_decide (u = "") then None else Some u
             | None => None
             end) participants.

(** [userIds.length >= 2 && userIds[0] === user?.id], with [userIds]
    sorted: the test of [handleConnectAndStart] and of the [user_ready]
    handler. *)
Definition shouldCreateOffer (participants : list (option uuid)) (user : uuid) : bool :=
  let userIds := sort (userIds participants) in
  (2 <=? length userIds)%nat && bool_decide (userIds !! 0%nat = Some user).

End LiveDebateRoomView.

(* ===================================================================== *)
(** * The results page ([src/src/pages/RoomResults.tsx])                   *)
(* ===================================================================== *)

Module RoomResults.
Import Elo.



(** [.maybeSingle()]: the row when exactly one matches; no data when none
    does, and no data (with an error) when several do. *)
Definition maybeSingle {A} (rows : list A) : option A :=
  match rows with
  | [r] => Some r
  | _ => None
  end.

(** The policy "Users can view own match history":
    [auth.uid() = user_a_id OR auth.uid() = user_b_id OR is_admin()]. *)
Definition can_view (viewer : uuid) (admin : bool) (h : history_entry) : bool :=
  eqb_uuid viewer (user_a_id h) || eqb_uuid viewer (user_b_id h) || admin.

(** [matchHistory] as [fetchResults] leaves it on a freshly opened page:
    the rows of the room that the policy lets the signed-in user read,
    through [.maybeSingle()]. *)
Definition fetched_history (db : Db) (viewer : uuid) (admin : bool) (id : uuid)
    : option history_entry :=
  maybeSingle (select_where (λ h, eqb_uuid (h_room_id h) id)
                 (select_where (can_view viewer admin) (match_history db))).

Definition truthy_num (n : Z) : bool := negb (n =? 0).


Definition getRatingChange (user : option uuid) (matchHistory : option history_entry)
    : option Z :=
  match matchHistory, user with
  | Some h, Some user =>
      if bool_decide (user_a_id h = user)
         && truthy_num (rating_after_a h) && truthy_num (rating_before_a h)
      then Some (rating_after_a h - rating_before_a h)
      else if bool_decide (user_b_id h = user)
              && truthy_num (rating_after_b h) && truthy_num (rating_before_b h)
      then Some (rating_after_b h - rating_before_b h)
      else None
  | _, _ => None
  end.

End RoomResults.

(* ===================================================================== *)
(** * The preparation timer ([PrepTimer], [src/unnamed/part_006])          *)
(* ===================================================================== *)

Module PrepTimer.

(** The props and state of the component that bear on its clock, with the
    number of times it has called [onComplete] and [onSkip]. *)
Record State := {
  totalSeconds : Z;
  serverTimeProp : option Z;
  timeLeft : Z;
  isPaused : bool;
  completions : nat;
  skips : nat;
}.

Definition set_timeLeft (t : Z) (s : State) : State :=
  {| totalSeconds := totalSeconds s; serverTimeProp := serverTimeProp s;
     timeLeft := t; isPaused := isPaused s;
     completions := completions s; skips := skips s |}.

(** The effect on [serverTimeProp] and [timeLeft]: the display follows
    the server value when it is more than a second away from it. *)
Definition sync (s : State) : State :=
  match serverTimeProp s with
  | Some v => if 1 <? Z.abs (timeLeft s - v) then set_timeLeft v s else s
  | None => s
  end.

(** The callback of the one-second interval, which is armed while the
    component is not paused and [timeLeft] is above 0. *)
Definition interval (s : State) : State :=
  if isPaused s || (timeLeft s <=? 0) then s
  else if timeLeft s <=? 1
       then {| totalSeconds := totalSeconds s; serverTimeProp := serverTimeProp s;
               timeLeft := 0; isPaused := isPaused s;
               completions := S (completions s); skips := skips s |}
       else set_timeLeft (timeLeft s - 1) s.

Inductive Event :=
  | Tick          (* a second passes *)
  | TogglePause   (* the Pause / Resume button *)
  | Skip.         (* the Skip button *)

Definition handle (e : Event) (s : State) : State :=
  sync (match e with
        | Tick => interval s
        | TogglePause =>
            {| totalSeconds := totalSeconds s; serverTimeProp := serverTimeProp s;
               timeLeft := timeLeft s; isPaused := negb (isPaused s);
               completions := completions s; skips := skips s |}
        | Skip =>
            {| totalSeconds := totalSeconds s; serverTimeProp := serverTimeProp s;
               timeLeft := timeLeft s; isPaused := isPaused s;
               completions := completions s; skips := S (skips s) |}
        end).

Definition run (evs : list Event) (s : State) : State :=
  foldl (λ s e, handle e s) s evs.

(** The component as mounted with these props. *)
Definition mount (total : Z) (server : option Z) : State :=
  sync {| totalSeconds := total; serverTimeProp := server; timeLeft := total;
          isPaused := false; completions := 0; skips := 0 |}.

End PrepTimer.

(* ===================================================================== *)
(** * The rating engine over the store of the migrations                   *)
(* ===================================================================== *)

Module EloStore.
Import Elo.

(** The range of a column of type INTEGER. *)
Definition INT4_MIN : Z := -2147483648.
Definition INT4_MAX : Z := 2147483647.

Definition int4 (z : Z) : bool := (INT4_MIN <=? z) && (z <=? INT4_MAX).

(** A nullable INTEGER column. *)
Definition int4_null (z : option Z) : bool := from_option int4 true z.

(** Whether the store takes these values for a row of [profiles]: its
    three counters are INTEGER columns; [elo_by_format] is JSONB and takes
    any number. *)
Definition profile_accepted (p : profile) : bool :=
  int4_null (total_debates p) && int4_null (total_wins p)
  && int4_null (current_streak p).

(** Whether the store takes a row of [match_history]: the four ratings
    and the duration are INTEGER columns. *)
Definition history_accepted (h : history_entry) : bool :=
  int4 (rating_before_a h) && int4 (rating_after_a h)
  && int4 (rating_before_b h) && int4 (rating_after_b h)
  && int4 (duration_seconds h).

(** [.from('profiles').update({...}).eq('id', i)]: the statement is
    carried out on every row with that key or, when a value does not fit
    its column, on none. *)
Definition update_profile (i : uuid) (f : profile → profile) (t : list profile)
    : list profile :=
  if forallb (λ p, profile_accepted (f p))
             (select_where (λ p, eqb_uuid (prof_id p) i) t)
  then update_where (λ p, eqb_uuid (prof_id p) i) f t
  else t.

(** [.from('match_history').insert({...})] *)
Definition insert_history (h : history_entry) (t : list history_entry)
    : list history_entry :=
  if history_accepted h then t ++ [h] else t.

Section Handler.
Context {number : Type} `{JsNumber number}.

(** The write phase of the handler against this store.  The handler
    awaits each of the three statements and looks at the error of none,
    so a rejected statement is skipped and the next one runs. *)
Definition writes_checked (now : Z) (s : settlement) (db : Db) : Db :=
  let a := s_userA s in
  let b := s_userB s in
  let t1 := update_profile (prof_id a)
              (apply_result (format_of s) (newRatingA s) (scoreA s) a) (profiles db) in
  let t2 := update_profile (prof_id b)
              (apply_result (format_of s) (newRatingB s) (scoreB s) b) t1 in
  {| debate_rooms := debate_rooms db;
     match_result_submissions := match_result_submissions db;
     debate_participants := debate_participants db;
     profiles := t2;
     match_history := insert_history (history_of now s) (match_history db) |}.

(** [app.post('/')] against this store: the read phase and the answer are
    those of [Elo.settle]. *)
Definition settle_checked (now : Z) (db : Db) (roomId : string) : response * Db :=
  match checks db roomId with
  | inl r => (r, db)
  | inr s => (EloUpdated (newRatingA s - ratingA s) (newRatingB s - ratingB s),
              writes_checked now s db)
  end.

(** The three statements of a settlement are all accepted. *)
Definition accepted (now : Z) (s : settlement) : bool :=
  profile_accepted
    (apply_result (format_of s) (newRatingA s) (scoreA s) (s_userA s) (s_userA s))
  && profile_accepted
       (apply_result (format_of s) (newRatingB s) (scoreB s) (s_userB s) (s_userB s))
  && history_accepted (history_of now s).

End Handler.

End EloStore.

(* ===================================================================== *)
(** * The table of result submissions, as the clients reach it             *)
(* ===================================================================== *)

Module Submissions.
Import Elo.

(** [CONSTRAINT unique_submission UNIQUE (room_id, user_id)] *)
Definition unique_submission (t : list submission) : bool :=
  bool_decide (NoDup (map (λ x, (sub_room_id x, sub_user_id x)) t)).

(** The statements a signed-in client can send for the table. *)
Inductive statement :=
  | Insert (row : submission)
  | Update (p : submission → bool) (f : submission → submission)
  | Delete (p : submission → bool).

(** A statement of the signed-in [user].  The table has row security
    with two policies only: one for SELECT and "Users can insert own
    submissions" ([WITH CHECK (auth.uid() = user_id)]).  An insert must
    also name an existing room ([room_id REFERENCES debate_rooms]) and
    keep [unique_submission]; with no policy for them, UPDATE and DELETE
    reach no row. *)
Definition exec (user : uuid) (st : statement) (db : Db) : Db :=
  match st with
  | Insert row =>
      if bool_decide (sub_user_id row = user)
         && existsb (λ r, eqb_uuid (room_id r) (sub_room_id row)) (debate_rooms db)
         && unique_submission (match_result_submissions db ++ [row])
      then {| debate_rooms := debate_rooms db;
              match_result_submissions := match_result_submissions db ++ [row];
              debate_participants := debate_participants db;
              profiles := profiles db;
              match_history := match_history db |}
      else db
  | Update _ _ => db
  | Delete _ => db
  end.

(** Statements of several users, one after the other. *)
Definition exec_all (sts : list (uuid * statement)) (db : Db) : Db :=
  foldl (λ db us, exec us.1 us.2 db) db sts.

(** The insert of [handleSubmitResult] ([src/src/pages/Room.tsx]), whose
    error the page does not read. *)
Definition submit_result (user roomId : uuid) (result : match_result) : statement :=
  Insert {| sub_room_id := roomId; sub_user_id := user; submitted_result := result |}.

End Submissions.

(* ===================================================================== *)
(** * Facts about the table operations                                     *)
(* ===================================================================== *)

Section TableFacts.
Context {A K : Type} `{EqDecision K}.
Variable key : A → K.

Lemma update_where_keys (p : A → bool) (f : A → A) (t : list A) :
  (∀ r, key (f r) = key r) →
  map key (update_where p f t) = map key t.
Proof.
  intros Hf. unfold update_where. induction t as [|r t IH]; simpl; [done|].
  rewrite IH. by destruct (p r); rewrite ?Hf.
Qed.

(** With unique keys, the row found under a key after an update by that
    key is the updated row. *)
Lemma find_update_where_hit (a : A) (f : A → A) (t : list A) :
  NoDup (map key t) → a ∈ t → key (f a) = key a →
  List.find (λ r, bool_decide (key r = key a))
    (update_where (λ r, bool_decide (key r = key a)) f t) = Some (f a).
Proof.
  unfold update_where. induction t as [|r t IH]; intros Hnd Hin Hf.
  - by apply elem_of_nil in Hin.
  - apply NoDup_cons in Hnd as [Hr Hnd]. cbn [map List.find].
    destruct (decide (key r = key a)) as [Heq|Hne].
    + assert (r = a) as ->.
      { apply elem_of_cons in Hin as [->|Hin]; [done|].
        exfalso. apply Hr. rewrite Heq. by apply list_elem_of_fmap_2. }
      rewrite (bool_decide_eq_true_2 _ Heq).
      by rewrite (bool_decide_eq_true_2 _ Hf).
    + rewrite (bool_decide_eq_false_2 _ Hne).
      rewrite (bool_decide_eq_false_2 _ Hne).
      apply IH; [done| |done].
      apply elem_of_cons in Hin as [->|Hin]; [done|done].
Qed.

(** An update by another key does not change what is found under [k]. *)
Lemma find_update_where_miss (k k' : K) (f : A → A) (t : list A) :
  k ≠ k' → (∀ r, key (f r) = key r) →
  List.find (λ r, bool_decide (key r = k))
    (update_where (λ r, bool_decide (key r = k')) f t)
  = List.find (λ r, bool_decide (key r = k)) t.
Proof.
  intros Hne Hf. unfold update_where. induction t as [|r t IH]; [done|].
  cbn [map List.find].
  destruct (decide (key r = k')) as [Heq|Hne'].
  - rewrite (bool_decide_eq_true_2 _ Heq). rewrite Hf.
    rewrite IH. by rewrite !bool_decide_eq_false_2 by congruence.
  - rewrite (bool_decide_eq_false_2 _ Hne'). by rewrite IH.
Qed.

End TableFacts.

Lemma NoDup_map_filter {A K} (key : A → K) (q : A → bool) (t : list A) :
  NoDup (map key t) → NoDup (map key (List.filter q t)).
Proof.
  induction t as [|r t IH]; simpl; [done|].
  intros [Hr Hnd]%NoDup_cons. destruct (q r); simpl; [|by apply IH].
  apply NoDup_cons. split; [|by apply IH].
  intros (y & Hy & Hin)%list_elem_of_fmap_1. apply Hr. rewrite Hy.
  apply list_elem_of_fmap_2. apply list_elem_of_In.
  apply list_elem_of_In in Hin. by apply filter_In in Hin as [? _].
Qed.


(* ===================================================================== *)
(** * The rating engine: what [settle] does                                *)
(* ===================================================================== *)

Module EloFacts.
Import Elo.

(** ** The read phase *)

Definition subs_of (db : Db) (roomId : string) : list submission :=
  select_where (λ x, eqb_uuid (sub_room_id x) roomId) (match_result_submissions db).

Definition parts_of (db : Db) (roomId : string) : list participant :=
  select_where (λ p, eqb_uuid (part_room_id p) roomId && negb (is_ai p))
               (debate_participants db).

Definition profs_of (db : Db) (roomId : string) : list profile :=
  select_where (λ p, bool_decide (Some (prof_user_id p) ∈ map part_user_id (parts_of db roomId)))
               (profiles db).

(** What a successful read phase has established. *)
Lemma checks_inr db roomId s :
  checks db roomId = inr s →
  roomId ≠ "" ∧
  single (select_where (λ r, eqb_uuid (room_id r) roomId) (debate_rooms db)) = Some (s_room s) ∧
  room_mode (s_room s) = ranked ∧
  is_ai_opponent (s_room s) = false ∧
  (hasWin (subs_of db roomId) && hasLoss (subs_of db roomId)) || allDraw (subs_of db roomId) = true ∧
  (∃ rest, profs_of db roomId = s_userA s :: s_userB s :: rest) ∧
  s_isDraw s = allDraw (subs_of db roomId) ∧
  s_winnerUserId s =
    (if allDraw (subs_of db roomId) then None else winner_of (subs_of db roomId)).
Proof.
  unfold checks. fold (subs_of db roomId). fold (parts_of db roomId).
  fold (profs_of db roomId).
  case_bool_decide as Hid; [done|].
  destruct (single _) as [room|] eqn:Hroom; [|done].
  destruct (negb (bool_decide (room_mode room = ranked)) || is_ai_opponent room)
    eqn:Hranked; [done|].
  apply orb_false_iff in Hranked as [Hmode Hai].
  apply negb_false_iff, bool_decide_eq_true in Hmode.
  destruct (length (subs_of db roomId) <? 2)%nat; [done|].
  destruct (negb _) eqn:Hcons; [done|]. apply negb_false_iff in Hcons.
  destruct (length (parts_of db roomId) <? 2)%nat; [done|].
  destruct (profs_of db roomId) as [|a [|b rest]]; [done|done|].
  intros [= <-]. simpl. repeat split; try done. by exists rest.
Qed.


(** ** Rows of [profiles] under the primary key *)

Definition profile_by_id (db : Db) (i : uuid) : option profile :=
  List.find (λ p, bool_decide (prof_id p = i)) (profiles db).

(** [id UUID PRIMARY KEY] on [profiles]. *)
Definition profiles_pkey (db : Db) : Prop := NoDup (map prof_id (profiles db)).

Lemma checks_users db roomId s :
  checks db roomId = inr s → profiles_pkey db →
  s_userA s ∈ profiles db ∧ s_userB s ∈ profiles db ∧
  prof_id (s_userA s) ≠ prof_id (s_userB s).
Proof.
  intros Hc Hpk. apply checks_inr in Hc as (_ & _ & _ & _ & _ & [rest Hp] & _).
  assert (∀ x, x ∈ profs_of db roomId → x ∈ profiles db) as Hsub.
  { intros x Hx. apply list_elem_of_In. apply list_elem_of_In in Hx.
    unfold profs_of, select_where in Hx. by apply filter_In in Hx as [? _]. }
  pose proof (NoDup_map_filter prof_id
    (λ p, bool_decide (Some (prof_user_id p) ∈ map part_user_id (parts_of db roomId)))
    (profiles db) Hpk) as Hnd.
  fold (select_where (λ p, bool_decide (Some (prof_user_id p) ∈ map part_user_id (parts_of db roomId))) (profiles db)) in Hnd.
  fold (profs_of db roomId) in Hnd. rewrite Hp in Hnd, Hsub.
  split; [apply Hsub; set_solver|]. split; [apply Hsub; set_solver|].
  simpl in Hnd. apply NoDup_cons in Hnd as [Hnd _]. set_solver.
Qed.

(** ** Results and scores *)

(** The pairs of results the consistency rule accepts. *)
Definition consistent_pair (r1 r2 : match_result) : Prop :=
  (r1 = win ∧ r2 = loss) ∨ (r1 = loss ∧ r2 = win) ∨ (r1 = draw ∧ r2 = draw).


(** The handler's test, on two submissions, is the consistency rule. *)
Lemma consistent_two (s1 s2 : submission) :
  (hasWin [s1; s2] && hasLoss [s1; s2]) || allDraw [s1; s2] = true →
  consistent_pair (submitted_result s1) (submitted_result s2).
Proof.
  unfold hasWin, hasLoss, allDraw, results_of, consistent_pair. cbn [map].
  destruct (submitted_result s1), (submitted_result s2); vm_compute;
    intros Hc; try discriminate Hc; tauto.
Qed.

(** ** The write phase, over any arithmetic *)

Section Generic.
Context {number : Type} `{JsNumber number}.

(** The two updates of the write phase, as one rewriting of every row. *)
Definition rewrite_row (s : settlement) (p : profile) : profile :=
  let p1 := if eqb_uuid (prof_id p) (prof_id (s_userA s))
            then apply_result (format_of s) (newRatingA s) (scoreA s) (s_userA s) p
            else p in
  if eqb_uuid (prof_id p1) (prof_id (s_userB s))
  then apply_result (format_of s) (newRatingB s) (scoreB s) (s_userB s) p1
  else p1.

Lemma writes_profiles now s db :
  profiles (writes now s db) = map (rewrite_row s) (profiles db).
Proof.
  unfold writes, update_where; simpl. by rewrite map_map.
Qed.



Lemma settle_inr now db roomId s :
  checks db roomId = inr s →
  settle now db roomId =
    (EloUpdated (newRatingA s - ratingA s) (newRatingB s - ratingB s), writes now s db).
Proof. unfold settle. by intros ->. Qed.

Lemma settle_inl now db roomId r :
  checks db roomId = inl r → settle now db roomId = (r, db).
Proof. unfold settle. by intros ->. Qed.


Lemma writes_history now s db :
  match_history (writes now s db) = (match_history db ++ [history_of now s])%list.
Proof. done. Qed.

(** After the write phase each side's row is the one its update built. *)
Lemma writes_rows now db roomId s :
  checks db roomId = inr s → profiles_pkey db →
  profile_by_id (writes now s db) (prof_id (s_userA s))
    = Some (apply_result (format_of s) (newRatingA s) (scoreA s) (s_userA s) (s_userA s)) ∧
  profile_by_id (writes now s db) (prof_id (s_userB s))
    = Some (apply_result (format_of s) (newRatingB s) (scoreB s) (s_userB s) (s_userB s)) ∧
  rewrite_row s (s_userA s)
    = apply_result (format_of s) (newRatingA s) (scoreA s) (s_userA s) (s_userA s) ∧
  rewrite_row s (s_userB s)
    = apply_result (format_of s) (newRatingB s) (scoreB s) (s_userB s) (s_userB s).
Proof.
  intros Hc Hpk. destruct (checks_users _ _ _ Hc Hpk) as (HA & HB & Hne).
  assert (rewrite_row s (s_userA s)
    = apply_result (format_of s) (newRatingA s) (scoreA s) (s_userA s) (s_userA s)) as HrA.
  { unfold rewrite_row, eqb_uuid. cbv zeta.
    rewrite (bool_decide_eq_true_2 (prof_id (s_userA s) = prof_id (s_userA s))) by done.
    cbn [apply_result prof_id]. by rewrite (bool_decide_eq_false_2 _ Hne). }
  assert (rewrite_row s (s_userB s)
    = apply_result (format_of s) (newRatingB s) (scoreB s) (s_userB s) (s_userB s)) as HrB.
  { unfold rewrite_row, eqb_uuid. cbv zeta.
    rewrite (bool_decide_eq_false_2 (prof_id (s_userB s) = prof_id (s_userA s)))
      by congruence.
    by rewrite (bool_decide_eq_true_2 (prof_id (s_userB s) = prof_id (s_userB s))). }
  split; [|split; [|done]].
  - unfold profile_by_id, writes, eqb_uuid; cbn [profiles].
    rewrite (find_update_where_miss prof_id) by done.
    by apply (find_update_where_hit prof_id).
  - unfold profile_by_id, writes, eqb_uuid; cbn [profiles].
    apply (find_update_where_hit prof_id); [| |done].
    + by rewrite (update_where_keys prof_id).
    + unfold update_where. apply list_elem_of_fmap.
      exists (s_userB s). split; [|done].
      by rewrite bool_decide_eq_false_2 by congruence.
Qed.




(** When the room has exactly two submissions whose results are neither a
    win with a loss (in either order) nor two draws, [settle] returns the
    store as it was, and for a ranked human-vs-human room it answers
    'Inconsistent results'. *)
Lemma inconsistent_results_leave_store now db roomId s1 s2 :
  subs_of db roomId = [s1; s2] →
  ¬ consistent_pair (submitted_result s1) (submitted_result s2) →
  (settle now db roomId).2 = db ∧
  (∀ room,
     roomId ≠ "" →
     select_where (λ r, eqb_uuid (room_id r) roomId) (debate_rooms db) = [room] →
     room_mode room = ranked →
     is_ai_opponent room = false →
     (settle now db roomId).1 = InconsistentResults).
Proof.
  intros Hsubs Hinc.
  assert (∃ r, checks db roomId = inl r) as [r Hr].
  { destruct (checks db roomId) as [r|s] eqn:Hc; [by exists r|].
    apply checks_inr in Hc as (_ & _ & _ & _ & Hcons & _).
    rewrite Hsubs in Hcons. by apply consistent_two in Hcons. }
  rewrite (settle_inl _ _ _ _ Hr). split; [done|].
  intros room Hid Hroom Hmode Hai. cbn [fst].
  revert Hr. unfold checks. fold (subs_of db roomId).
  rewrite bool_decide_eq_false_2 by done.
  rewrite Hroom. cbn [single]. rewrite Hmode, Hai, Hsubs.
  rewrite bool_decide_eq_true_2 by done. cbn [negb orb length Nat.ltb Nat.leb].
  destruct (negb _) eqn:Hcons; [congruence|].
  apply negb_false_iff, consistent_two in Hcons. done.
Qed.



End Generic.

(** ** Exact arithmetic *)

Lemma Math_round_IZR (n : Z) : Math_round (IZR n) = n.
Proof.
  cbn [Math_round real_number]. symmetry. apply Int_part_spec. split; lra.
Qed.

Lemma expected_same (r : Z) : expected (number := R) r r = (1 / 2)%R.
Proof.
  unfold expected. cbn [of_int js_add js_sub js_div Math_pow real_number].
  replace ((IZR r - IZR r) / 400)%R with 0%R by lra.
  rewrite Rpower_O by lra. lra.
Qed.

Lemma Q2R_one : Q2R 1 = 1%R.
Proof. unfold Q2R; simpl; lra. Qed.

Lemma Q2R_zero : Q2R 0 = 0%R.
Proof. unfold Q2R; simpl; lra. Qed.

(** Between equal ratings a win moves the winner up by half of K and a
    loss moves the loser down by half of K (K is even in every tier). *)
Lemma newRating_same_win (r h : Z) :
  newRating r (2 * h) 1 (expected (number := R) r r) = r + h.
Proof.
  rewrite expected_same. unfold newRating.
  cbn [of_int of_ratio js_add js_sub js_mul real_number]. rewrite Q2R_one.
  replace (IZR r + IZR (2 * h) * (1 - 1 / 2))%R with (IZR (r + h)).
  - apply Math_round_IZR.
  - rewrite plus_IZR, mult_IZR. lra.
Qed.

Lemma newRating_same_loss (r h : Z) :
  newRating r (2 * h) 0 (expected (number := R) r r) = r - h.
Proof.
  rewrite expected_same. unfold newRating.
  cbn [of_int of_ratio js_add js_sub js_mul real_number]. rewrite Q2R_zero.
  replace (IZR r + IZR (2 * h) * (0 - 1 / 2))%R with (IZR (r - h)).
  - apply Math_round_IZR.
  - rewrite minus_IZR, mult_IZR. lra.
Qed.

(** ** Example data: one ranked room, two humans, both at 1200 *)

Definition alice : profile :=
  {| prof_id := "p-alice"; prof_user_id := "alice";
     elo_by_format := {[ "AP" := 1200 ]};
     total_debates := Some 3; total_wins := Some 2; current_streak := Some 2 |}.

Definition bob : profile :=
  {| prof_id := "p-bob"; prof_user_id := "bob";
     elo_by_format := {[ "AP" := 1200 ]};
     total_debates := Some 5; total_wins := Some 1; current_streak := Some 0 |}.

Definition room1 : debate_room :=
  {| room_id := "room-1"; room_format := "AP"; room_mode := ranked;
     room_status_of := completed; is_ai_opponent := false;
     created_at := 0; started_at := Some 1000; ended_at := Some 601000 |}.

(** The store after alice submitted [ra] and bob submitted [rb]. *)
Definition db_after (ra rb : match_result) : Db :=
  {| debate_rooms := [room1];
     match_result_submissions :=
       [ {| sub_room_id := "room-1"; sub_user_id := "alice"; submitted_result := ra |};
         {| sub_room_id := "room-1"; sub_user_id := "bob"; submitted_result := rb |} ];
     debate_participants :=
       [ {| part_room_id := "room-1"; part_user_id := Some "alice"; is_ai := false |};
         {| part_room_id := "room-1"; part_user_id := Some "bob"; is_ai := false |} ];
     profiles := [alice; bob];
     match_history := [] |}.

Definition settlement_after (ra rb : match_result) : settlement :=
  {| s_room := room1; s_userA := alice; s_userB := bob;
     s_winnerUserId := if bool_decide (ra = win) then Some "alice"
                       else if bool_decide (rb = win) then Some "bob" else None;
     s_isDraw := bool_decide (ra = draw) && bool_decide (rb = draw) |}.

Lemma checks_win_loss :
  checks (db_after win loss) "room-1" = inr (settlement_after win loss).
Proof. vm_compute. reflexivity. Qed.

(** ** The examples, in exact arithmetic *)

Lemma settle_win_loss_example now :
  (settle (number := R) now (db_after win loss) "room-1").1 = EloUpdated 10 (-10).
Proof.
  rewrite (settle_inr _ _ _ _ checks_win_loss). cbn [fst].
  unfold newRatingA, newRatingB.
  change (ratingA (settlement_after win loss)) with 1200.
  change (ratingB (settlement_after win loss)) with 1200.
  change (scoreA (settlement_after win loss)) with 1%Q.
  change (scoreB (settlement_after win loss)) with 0%Q.
  change (getKFactor 1200) with (2 * 10).
  by rewrite newRating_same_win, newRating_same_loss.
Qed.

(** C2 as stated fails: at 1200 the K-factor is not 40 and the deltas of a
    decisive win between two 1200-rated players are not +20 and -20. *)
Lemma equal_1200_not_K40 :
  getKFactor 1200 ≠ 40 ∧
  (settle (number := R) 0 (db_after win loss) "room-1").1 ≠ EloUpdated 20 (-20).
Proof.
  split.
  - vm_compute. discriminate.
  - rewrite settle_win_loss_example. discriminate.
Qed.




End EloFacts.

(* ===================================================================== *)
(** * [advance_debate_phase]: what a call does                             *)
(* ===================================================================== *)

Module PhaseSqlFacts.
Import PhaseSql.

(** The UPDATE statement taken alone is conditional on the stored phase:
    a row of another phase is left as it is. *)
Lemma update_phase_other_phase p_room_id cur next (r : room_row) rooms :
  r ∈ rooms → current_phase r ≠ Some cur →
  r ∈ update_phase p_room_id cur next rooms.
Proof.
  intros Hin Hne. unfold update_phase, update_where.
  apply list_elem_of_fmap. exists r. split; [|done].
  unfold phase_matches. rewrite (bool_decide_eq_false_2 _ Hne).
  by rewrite andb_false_r.
Qed.

Lemma update_phase_no_match p_room_id cur next rooms :
  row_count (phase_matches p_room_id cur) rooms = 0 →
  update_phase p_room_id cur next rooms = rooms.
Proof.
  unfold row_count, update_phase, update_where.
  induction rooms as [|r rooms IH]; simpl; [done|].
  destruct (phase_matches p_room_id cur r); simpl; [lia|].
  intros H. by rewrite IH.
Qed.

(** A row of the expected phase gets the next phase. *)
Lemma update_phase_match p_room_id cur next (r : room_row) rooms :
  r ∈ rooms → id r = p_room_id → current_phase r = Some cur →
  {| id := p_room_id; current_phase := Some next |}
    ∈ update_phase p_room_id cur next rooms.
Proof.
  intros Hin Hid Hcur. unfold update_phase, update_where.
  apply list_elem_of_fmap. exists r. split; [|done].
  unfold phase_matches, eqb_uuid.
  rewrite (bool_decide_eq_true_2 _ Hid), (bool_decide_eq_true_2 _ Hcur).
  simpl. by rewrite Hid.
Qed.

(** No value of a BOOLEAN variable compares with the integer [0]. *)
Lemma boolean_gt_integer_undefined v n :
  type_of v = BOOLEAN → op_gt v (VInt n) = inl undefined_function.
Proof. by destruct v. Qed.

Lemma assign_boolean_type v v' : assign BOOLEAN v = inr v' → type_of v' = BOOLEAN.
Proof.
  destruct v as [b|n|n]; simpl; [by intros [= <-]| |];
    destruct (boolin_of_integer_text n); by intros [= <-].
Qed.

(** Every call raises: [v_updated] is declared BOOLEAN, so the RETURN
    expression [v_updated > 0] has no operator, whatever the UPDATE did;
    the table is left as it was. *)
Lemma advance_debate_phase_always_raises rooms p_room_id cur next :
  ∃ e, advance_debate_phase rooms p_room_id cur next = (rooms, inl e).
Proof.
  unfold advance_debate_phase.
  destruct (assign _ _) as [e|v] eqn:Hassign; [by exists e|].
  apply assign_boolean_type in Hassign.
  rewrite (boolean_gt_integer_undefined _ _ Hassign). by eexists.
Qed.

Definition room_in_prep : list room_row :=
  [ {| id := "room-1"; current_phase := Some "prep" |} ].

(** C6, at a room whose stored phase is the expected one: the UPDATE
    statement would set the phase, yet the call raises
    [operator does not exist: boolean > integer] instead of returning
    true, and the table keeps the old phase. *)
Theorem advance_debate_phase_in_prep :
  update_phase "room-1" "prep" "prop_constructive" room_in_prep
    = [ {| id := "room-1"; current_phase := Some "prop_constructive" |} ] ∧
  advance_debate_phase room_in_prep "room-1" "prep" "prop_constructive"
    = (room_in_prep, inl undefined_function).
Proof. split; vm_compute; reflexivity. Qed.

End PhaseSqlFacts.

(* ===================================================================== *)
(** * The room component: the order of the phases                          *)
(* ===================================================================== *)

Module RoomFacts.
Import LiveDebateRoom.

(** The direct moves of the phase of one client. *)
Definition next_ok (p q : DebatePhase) : bool :=
  match p, q with
  | loading, setup | loading, waiting_for_opponent
  | waiting_for_opponent, setup
  | setup, prep
  | prep, prop_constructive
  | prop_constructive, opp_constructive
  | opp_constructive, prop_rebuttal
  | prop_rebuttal, opp_rebuttal
  | opp_rebuttal, prop_closing
  | prop_closing, opp_closing
  | opp_closing, debate_complete
  | debate_complete, judging
  | judging, results => true
  | _, _ => false
  end.

(** What holds of the state of a client whatever happened to it. *)
Record Inv (s : State) : Prop := {
  inv_next : ∀ q, nextPhaseAfterTransition s = Some q →
      (phase s = prep ∧ q = prop_constructive) ∨ getNextPhase (phase s) = Some q;
  inv_timer : isTimerRunning s = true → is_speech (phase s) = true;
  inv_modal : showPredictionModal s = true → phase s = debate_complete;
}.


Lemma getNextPhase_next_ok p q : getNextPhase p = Some q → next_ok p q = true.
Proof. destruct p; vm_compute; intros [= <-]; reflexivity. Qed.

Lemma getNextPhase_speech p q : getNextPhase p = Some q → is_speech q = true.
Proof. destruct p; vm_compute; intros [= <-]; reflexivity. Qed.

Lemma getNextPhase_last p :
  is_speech p = true → getNextPhase p = None → p = opp_closing.
Proof. destruct p; vm_compute; congruence. Qed.

(** The part of the state of a client that decides its phase. *)
Definition core (s : State) : DebatePhase * bool * option DebatePhase * bool :=
  (phase s, isTimerRunning s, nextPhaseAfterTransition s, showPredictionModal s).

Lemma startPhase_core p s :
  core (startPhase p s) = (p, true, nextPhaseAfterTransition s, showPredictionModal s).
Proof.
  unfold startPhase. cbv zeta.
  destruct (_ && voiceSupported _); reflexivity.
Qed.

Lemma handleTransitionComplete_core s :
  core (handleTransitionComplete s) =
    match nextPhaseAfterTransition s with
    | Some p => (p, true, None, showPredictionModal s)
    | None => core s
    end.
Proof.
  unfold handleTransitionComplete. cbv zeta.
  destruct (nextPhaseAfterTransition s) as [p|] eqn:Hnext.
  - pose proof (startPhase_core p (set_transition false (Some p) s)) as H.
    unfold core in *. cbn [set_transition phase isTimerRunning
      nextPhaseAfterTransition showPredictionModal] in *.
    congruence.
  - unfold core. cbn. by rewrite Hnext.
Qed.

Lemma handlePhaseEnd_core s :
  core (handlePhaseEnd s) =
    match getNextPhase (phase s) with
    | Some q => (phase s, false, Some q, showPredictionModal s)
    | None => (debate_complete, false, nextPhaseAfterTransition s, true)
    end.
Proof.
  unfold handlePhaseEnd. cbv zeta.
  destruct (getNextPhase (phase s)), (isRecording s); reflexivity.
Qed.

(** An event of the overlay either leaves the phase, the clock, the staged
    phase and the modal as they are, or is a completion of the pause. *)
Lemma on_overlay_core e s :
  core (on_overlay e s) = core s ∨
  ∃ s1, core s1 = core s ∧ on_overlay e s = handleTransitionComplete s1.
Proof.
  unfold on_overlay. destruct (overlay s) as [o|]; [|by left].
  destruct e; try by left.
  all: cbv zeta; destruct (Nat.ltb _ _); [right; by eexists|by left].
Qed.

Lemma Inv_core s s' : core s' = core s → Inv s → Inv s'.
Proof.
  unfold core. intros [= Hp Ht Hn Hm] [In It Im].
  split; rewrite ?Hp, ?Ht, ?Hn, ?Hm; done.
Qed.

Lemma Inv_of_core s p running next modal :
  core s = (p, running, next, modal) →
  (∀ q, next = Some q → (p = prep ∧ q = prop_constructive) ∨ getNextPhase p = Some q) →
  (running = true → is_speech p = true) →
  (modal = true → p = debate_complete) →
  Inv s.
Proof. unfold core. intros [= <- <- <- <-] ? ? ?. by split. Qed.

Lemma handle_step e s :
  Inv s →
  Inv (handle e s) ∧
  (phase (handle e s) = phase s ∨ next_ok (phase s) (phase (handle e s)) = true).
Proof.
  intros HI. pose proof HI as [Hn Ht Hm].
  assert (∀ s', core s' = core s → Inv s' ∧ (phase s' = phase s ∨ next_ok (phase s) (phase s') = true)) as Hsame.
  { intros s' Hc. split; [by apply (Inv_core s)|]. left. unfold core in Hc. congruence. }
  destruct e as [allc live|allc|a|ok|topic|ce| | | |m]; unfold handle.
  - (* RoomFetched *)
    case_bool_decide as Hp; [|by apply Hsame].
    assert (nextPhaseAfterTransition s = None) as Hnone.
    { destruct (nextPhaseAfterTransition s) as [q|] eqn:E; [|done].
      destruct (Hn q eq_refl) as [[? _]|H]; [congruence|]. rewrite Hp in H. discriminate H. }
    assert (isTimerRunning s = false) as Hrun.
    { destruct (isTimerRunning s); [|done]. specialize (Ht eq_refl). by rewrite Hp in Ht. }
    assert (showPredictionModal s = false) as Hmod.
    { destruct (showPredictionModal s); [|done]. specialize (Hm eq_refl). congruence. }
    destruct allc, live; (split; [eapply Inv_of_core; [unfold core; cbn; rewrite Hnone, Hrun, Hmod; reflexivity|done..] | right; cbn; by rewrite Hp]).
  - (* ParticipantsChanged *)
    destruct (allc && _) eqn:Hc; [|by apply Hsame].
    apply andb_true_iff in Hc as [_ Hp%bool_decide_eq_true].
    assert (nextPhaseAfterTransition s = None) as Hnone.
    { destruct (nextPhaseAfterTransition s) as [q|] eqn:E; [|done].
      destruct (Hn q eq_refl) as [[? _]|H]; [congruence|]. rewrite Hp in H. discriminate H. }
    assert (isTimerRunning s = false) as Hrun.
    { destruct (isTimerRunning s); [|done]. specialize (Ht eq_refl). by rewrite Hp in Ht. }
    assert (showPredictionModal s = false) as Hmod.
    { destruct (showPredictionModal s); [|done]. specialize (Hm eq_refl). congruence. }
    split; [eapply Inv_of_core; [unfold core; cbn; rewrite Hnone, Hrun, Hmod; reflexivity|done..]
           | right; cbn; by rewrite Hp].
  - (* SetTransitionMode *)
    case_bool_decide; by apply Hsame.
  - (* ConnectAndStart *)
    case_bool_decide as Hp; [|by apply Hsame].
    destruct ok; [|by apply Hsame].
    assert (nextPhaseAfterTransition s = None) as Hnone.
    { destruct (nextPhaseAfterTransition s) as [q|] eqn:E; [|done].
      destruct (Hn q eq_refl) as [[? _]|H]; [congruence|]. rewrite Hp in H. discriminate H. }
    assert (isTimerRunning s = false) as Hrun.
    { destruct (isTimerRunning s); [|done]. specialize (Ht eq_refl). by rewrite Hp in Ht. }
    assert (showPredictionModal s = false) as Hmod.
    { destruct (showPredictionModal s); [|done]. specialize (Hm eq_refl). congruence. }
    split; [eapply Inv_of_core; [unfold core; cbn; rewrite Hnone, Hrun, Hmod; reflexivity|done..]
           | right; cbn; by rewrite Hp].
  - (* PrepComplete *)
    case_bool_decide as Hp; [|by apply Hsame].
    split; [|by left].
    eapply Inv_of_core; [unfold core; cbn; reflexivity| | |].
    + intros q [= <-]. by left.
    + done.
    + done.
  - (* Countdown *)
    destruct (on_overlay_core ce s) as [Hc|(s1 & Hc1 & ->)]; [by apply Hsame|].
    pose proof (handleTransitionComplete_core s1) as Hcore.
    unfold core in Hc1. injection Hc1 as Hp1 Ht1 Hn1 Hm1.
    rewrite Hn1, Hm1 in Hcore.
    destruct (nextPhaseAfterTransition s) as [q|] eqn:Hq.
    + assert (next_ok (phase s) q = true ∧ is_speech q = true) as [Hok Hsp].
      { destruct (Hn q eq_refl) as [[-> ->]|H]; [done|].
        split; [by apply getNextPhase_next_ok|by apply (getNextPhase_speech (phase s))]. }
      split.
      * eapply Inv_of_core; [exact Hcore|done|done|].
        intros Hmod. specialize (Hm Hmod). rewrite Hm in Hok. by destruct q.
      * right. unfold core in Hcore. by injection Hcore as -> _ _ _.
    + apply Hsame. rewrite Hcore. unfold core. congruence.
  - (* Tick *)
    destruct (isTimerRunning s) eqn:Hrun; [|by apply Hsame].
    specialize (Ht eq_refl). unfold tick.
    destruct (timeLeft s <=? 1); [|by apply Hsame].
    pose proof (handlePhaseEnd_core s) as Hcore.
    destruct (getNextPhase (phase s)) as [q|] eqn:Hq.
    * split; [|left; unfold core in Hcore; cbn; congruence].
      eapply Inv_of_core.
      -- unfold core in *. cbn. injection Hcore as -> -> -> ->. reflexivity.
      -- intros q' [= <-]. by right.
      -- done.
      -- done.
    * pose proof (getNextPhase_last _ Ht Hq) as Hlast.
      split; [|right; unfold core in Hcore; cbn; injection Hcore as -> _ _ _; by rewrite Hlast].
      eapply Inv_of_core.
      -- unfold core in *. cbn. injection Hcore as -> -> -> ->. reflexivity.
      -- intros q' Hq'. destruct (Hn q' Hq') as [[? _]|H]; [congruence|congruence].
      -- done.
      -- done.
  - (* RequestJudgment *)
    destruct (showPredictionModal s) eqn:Hmod; [|by apply Hsame].
    specialize (Hm eq_refl).
    split; [|right; cbn; by rewrite Hm].
    eapply Inv_of_core; [unfold core; cbn; reflexivity| | |done].
    + intros q Hq. destruct (Hn q Hq) as [[? _]|H]; [congruence|].
      rewrite Hm in H. discriminate H.
    + intros Hrun. specialize (Ht Hrun). by rewrite Hm in Ht.
  - (* JudgmentReturned *)
    case_bool_decide as Hp; [|by apply Hsame].
    split; [|right; cbn; by rewrite Hp].
    eapply Inv_of_core; [unfold core; cbn; reflexivity| | |].
    + intros q Hq. destruct (Hn q Hq) as [[? _]|H]; [congruence|].
      rewrite Hp in H. discriminate H.
    + intros Hrun. specialize (Ht Hrun). by rewrite Hp in Ht.
    + intros Hmod. specialize (Hm Hmod). congruence.
  - (* Received *)
    apply Hsame. destruct m; cbn; [done|done|]. by case_bool_decide.
Qed.

Lemma run_Inv evs s : Inv s → Inv (run evs s).
Proof.
  unfold run. revert s. induction evs as [|e evs IH]; intros s HI; [done|].
  simpl. apply IH. by apply handle_step.
Qed.

(** ** The overlay the room mounts *)

(** An overlay that is not shown, is not counting down and has no timer
    pending. *)
Definition inert (o : TransitionCountdown.State) : Prop :=
  TransitionCountdown.isVisible o = false ∧
  TransitionCountdown.isCountingDown o = false ∧
  TransitionCountdown.autoStartTimer o = false.

Lemma mount_inert m : inert (TransitionCountdown.mount false m).
Proof. done. Qed.

(** Nothing but the parent showing it changes an inert overlay. *)
Lemma handle_inert e o :
  inert o → e ≠ TransitionCountdown.Show → TransitionCountdown.handle e o = o.
Proof.
  intros (Hvis & Hcount & Hauto) He.
  destruct e; cbn [TransitionCountdown.handle]; try done.
  - by rewrite Hvis.
  - by rewrite Hauto.
  - unfold TransitionCountdown.interval. by rewrite Hcount.
  - by rewrite Hvis.
  - by rewrite Hvis.
  - by rewrite Hvis.
Qed.

Lemma pass_mode_inert m o : inert o → inert (pass_mode m o).
Proof.
  intros (Hvis & Hcount & Hauto). unfold pass_mode. case_bool_decide; [done|].
  unfold TransitionCountdown.reset. cbn. by rewrite Hvis.
Qed.

Lemma set_overlay_same s : set_overlay (overlay s) s = s.
Proof. by destruct s. Qed.

(** On an inert overlay no event has an effect on the room. *)
Lemma on_overlay_inert e s :
  (∀ o, overlay s = Some o → inert o) → on_overlay e s = s.
Proof.
  intros Hinert. unfold on_overlay.
  destruct (overlay s) as [o|] eqn:Ho; [|done]. specialize (Hinert o eq_refl).
  destruct e; try done; cbv zeta.
  all: rewrite (handle_inert _ o Hinert) by discriminate.
  all: rewrite Nat.ltb_irrefl, <- Ho. all: apply set_overlay_same.
Qed.

Definition before_speeches (p : DebatePhase) : bool :=
  match p with
  | loading | waiting_for_opponent | setup | prep => true
  | _ => false
  end.

(** What holds of a client that has not begun a speech. *)
Record Early (s : State) : Prop := {
  early_phase : before_speeches (phase s) = true;
  early_timer : isTimerRunning s = false;
  early_modal : showPredictionModal s = false;
  early_overlay : ∀ o, overlay s = Some o → inert o;
  early_sent : ∀ m, m ∈ sent s → ∃ u, m = user_ready u;
}.

Lemma Early_initial uid prop f mic voice : Early (initial uid prop f mic voice).
Proof.
  split; cbn; try done.
  intros m Hm. by apply elem_of_nil in Hm.
Qed.

Lemma handle_Early e s : Early s → Early (handle e s).
Proof.
  intros [Hp Ht Hm Ho Hs].
  destruct e as [allc live|allc|a|ok|topic|ce| | | |m]; cbn [handle].
  - case_bool_decide; [|done]. by destruct allc, live.
  - destruct (allc && _); done.
  - case_bool_decide; [|done]. split; try done. cbn [set_mode overlay].
    intros o. destruct (overlay s) as [o0|]; [|done].
    intros [= <-]. apply pass_mode_inert. by apply Ho.
  - case_bool_decide; [|done]. destruct ok; [|done].
    split; try done. cbn. intros m [Hin| ->%list_elem_of_singleton]%elem_of_app.
    + by apply Hs.
    + by eexists.
  - case_bool_decide as Hprep; [|done]. split; try done.
    cbn. intros o. destruct (overlay s) as [o0|]; intros [= <-]; [by apply Ho|done].
  - by rewrite on_overlay_inert.
  - by rewrite Ht.
  - by rewrite Hm.
  - case_bool_decide as Hj; [|done]. rewrite Hj in Hp. discriminate Hp.
  - destruct m; cbn; [done|done|]. by case_bool_decide.
Qed.

Lemma run_Early evs s : Early s → Early (run evs s).
Proof.
  unfold run. revert s. induction evs as [|e evs IH]; intros s HE; [done|].
  simpl. apply IH. by apply handle_Early.
Qed.

Lemma before_speeches_not_speech p : before_speeches p = true → is_speech p = false.
Proof. by destruct p. Qed.

Lemma phases_seen_Early evs s :
  Early s → List.filter is_speech (phases_seen evs s) = [].
Proof.
  revert s. induction evs as [|e evs IH]; intros s HE; [done|].
  pose proof (handle_Early e s HE) as HE'. cbn [phases_seen].
  case_bool_decide; [by apply IH|]. cbn [List.filter].
  rewrite (before_speeches_not_speech _ (early_phase _ HE')). by apply IH.
Qed.

(** C7 (as the code has it). A client of the room never begins a speech.
    Whatever happens to it from the mount on, its phase is one of loading,
    waiting_for_opponent, setup and prep, no speech phase is among the
    phases it went through, its speech clock is stopped, it has broadcast
    no phase change, and no timer or button of the pause overlay changes
    anything: the overlay is mounted without [isVisible], so it shows
    nothing, starts no countdown and never calls [onComplete], which alone
    would start a speech.  The handlers themselves are written for the
    fixed order: the end of preparation stages prop_constructive, the end
    of each speech stages the next of the six, the end of opp_closing
    leads to debate_complete, and a completed pause would begin the
    staged speech. *)
Theorem no_speech_phase_reached uid prop f mic voice evs :
  let s0 := initial uid prop f mic voice in
  let s := run evs s0 in
  (phase s = loading ∨ phase s = waiting_for_opponent ∨ phase s = setup ∨ phase s = prep) ∧
  List.filter is_speech (phases_seen evs s0) = [] ∧
  isTimerRunning s = false ∧
  (∀ u p, phase_change u p ∉ sent s) ∧
  (∀ e, handle (Countdown e) s = s) ∧
  (∀ topic s', nextPhaseAfterTransition (handlePrepComplete topic s') = Some prop_constructive) ∧
  map getNextPhase SPEECH_PHASES
    = [Some opp_constructive; Some prop_rebuttal; Some opp_rebuttal;
       Some prop_closing; Some opp_closing; None] ∧
  (∀ s' q, getNextPhase (phase s') = Some q →
     phase (handlePhaseEnd s') = phase s' ∧
     nextPhaseAfterTransition (handlePhaseEnd s') = Some q) ∧
  (∀ s', getNextPhase (phase s') = None → phase (handlePhaseEnd s') = debate_complete) ∧
  (∀ s' q, nextPhaseAfterTransition s' = Some q → phase (handleTransitionComplete s') = q).
Proof.
  cbv zeta. pose proof (Early_initial uid prop f mic voice) as HE0.
  pose proof (run_Early evs _ HE0) as [Hp Ht Hm Ho Hs].
  split; [by destruct (phase (run evs _)); auto|].
  split; [by apply phases_seen_Early|]. split; [done|].
  split; [intros u p Hin; by destruct (Hs _ Hin)|].
  split; [intros e; by apply on_overlay_inert|].
  split; [done|]. split; [done|].
  split; [|split].
  - intros s' q Hq. pose proof (handlePhaseEnd_core s') as Hc. rewrite Hq in Hc.
    unfold core in Hc. by injection Hc as -> _ -> _.
  - intros s' Hq. pose proof (handlePhaseEnd_core s') as Hc. rewrite Hq in Hc.
    unfold core in Hc. by injection Hc as -> _ _ _.
  - intros s' q Hq. pose proof (handleTransitionComplete_core s') as Hc. rewrite Hq in Hc.
    unfold core in Hc. by injection Hc as -> _ _ _.
Qed.

(** A client loads the room, connects and skips the preparation; then the
    buttons of the pause are clicked, its timers fire and seconds pass:
    the client is still in prep, with prop_constructive staged. *)
Lemma stuck_after_prep :
  let s := run ([RoomFetched true true; ConnectAndStart true; PrepComplete "motion";
                 Countdown TransitionCountdown.Confirm]
                ++ replicate 10 (Countdown TransitionCountdown.Tick)
                ++ [Countdown TransitionCountdown.SkipCountdown; Tick])
               (initial "alice" true standard true true) in
  phase s = prep ∧ showTransition s = true ∧
  nextPhaseAfterTransition s = Some prop_constructive ∧
  overlay s = Some (TransitionCountdown.mount false TransitionCountdown.mode_both) ∧
  sent s = [user_ready "alice"].
Proof. vm_compute. repeat split. Qed.

(** ** Two clients of one room *)

(** A [phase_change] message leaves the receiving client as it was. *)
Lemma phase_change_ignored from p s : handle (Received (phase_change from p)) s = s.
Proof. reflexivity. Qed.

(** No message of the channel changes the phase of the receiver. *)
Lemma received_keeps_phase msgs s : phase (run (map Received msgs) s) = phase s.
Proof.
  revert s. induction msgs as [|m msgs IH]; intros s; [done|].
  cbn [map run foldl]. fold (run (map Received msgs) (handle (Received m) s)).
  rewrite IH. destruct m; cbn; [done|done|]. by case_bool_decide.
Qed.

(** Alice has loaded the room and connected: she is in [prep].  Bob has
    loaded the room and not connected yet: he is in [setup]. *)
Definition alice_in_prep : State :=
  run [RoomFetched true true; ConnectAndStart true] (initial "alice" true standard true true).
Definition bob_in_setup : State :=
  run [RoomFetched true true] (initial "bob" false standard true true).

(** C5, at two clients of one room.  Alice connects and moves to prep,
    which she does by setting her own React state; all she broadcasts is
    'user_ready'.  Bob, who receives everything she sent, is still in
    setup and exactly as he was.  No message makes up for it: whatever
    messages a client receives its phase stays as it is, and a
    'phase_change' message leaves the whole state of the receiver as it
    was. *)
Theorem phase_change_not_adopted :
  let bob := run (map Received (sent alice_in_prep)) bob_in_setup in
  phase alice_in_prep = prep ∧
  sent alice_in_prep = [user_ready "alice"] ∧
  phase bob = setup ∧
  bob = bob_in_setup ∧
  (∀ msgs s, phase (run (map Received msgs) s) = phase s) ∧
  (∀ from p s, handle (Received (phase_change from p)) s = s).
Proof.
  cbv zeta. split; [reflexivity|]. split; [reflexivity|].
  split; [reflexivity|]. split; [reflexivity|].
  split; [apply received_keeps_phase|]. intros from p s. reflexivity.
Qed.

End RoomFacts.

(* ===================================================================== *)
(** * The queue: one waiting entry per participant                         *)
(* ===================================================================== *)

Module QueueFacts.
Import Queue.

(** At most one entry of each participant is waiting. *)
Definition at_most_one_waiting (t : list QueueEntry) : Prop :=
  ∀ u, (length (List.filter (waiting_entry_of u) t) ≤ 1)%nat.

Lemma no_waiting_entry u t :
  u ∉ map user_id (List.filter is_waiting t) →
  List.filter (waiting_entry_of u) t = [].
Proof.
  induction t as [|e t IH]; simpl; [done|].
  unfold waiting_entry_of at 1, eqb_uuid.
  destruct (is_waiting e) eqn:Hw; simpl.
  - intros [Hne Hnot]%not_elem_of_cons.
    rewrite bool_decide_eq_false_2 by congruence. simpl. by apply IH.
  - rewrite andb_false_r. apply IH.
Qed.

(** The unique index is the invariant. *)
Lemma index_at_most_one t :
  one_active_queue_per_user_waiting t = true → at_most_one_waiting t.
Proof.
  unfold one_active_queue_per_user_waiting. intros Hnd%bool_decide_eq_true u.
  induction t as [|e t IH]; simpl; [lia|].
  simpl in Hnd. unfold waiting_entry_of at 1, eqb_uuid.
  destruct (is_waiting e) eqn:Hw; simpl in *.
  - apply NoDup_cons in Hnd as [Hnot Hnd].
    case_bool_decide as Hu; simpl; [|by apply IH].
    subst u. rewrite (no_waiting_entry _ _ Hnot). simpl. lia.
  - rewrite andb_false_r. by apply IH.
Qed.

Lemma guarded_ok t t' : guarded t' = Some t → constraints_ok t = true.
Proof. unfold guarded. destruct (constraints_ok t') eqn:H; by intros [= <-]. Qed.

Lemma delete_constraints p t :
  constraints_ok t = true → constraints_ok (delete p t) = true.
Proof.
  unfold constraints_ok, pkey_ok, one_active_queue_per_user_waiting, delete, delete_where.
  intros [Hk%bool_decide_eq_true Hi%bool_decide_eq_true]%andb_true_iff.
  apply andb_true_iff. split; apply bool_decide_eq_true.
  - by apply NoDup_map_filter.
  - assert (List.filter is_waiting (List.filter (λ r, negb (p r)) t)
            = List.filter (λ r, negb (p r)) (List.filter is_waiting t)) as ->.
    { clear. induction t as [|e t IH]; simpl; [done|].
      destruct (p e) eqn:Hp, (is_waiting e) eqn:Hw; simpl; rewrite ?Hp, ?Hw, ?IH; done. }
    by apply NoDup_map_filter.
Qed.

(** Every statement leaves a table that satisfies the constraints. *)
Lemma exec_constraints st t :
  constraints_ok t = true → constraints_ok (exec st t) = true.
Proof.
  intros Hok. destruct st as [e|p f|p]; simpl.
  - unfold insert. destruct (guarded _) eqn:H; [by apply guarded_ok in H|done].
  - unfold update. destruct (guarded _) eqn:H; [by apply guarded_ok in H|done].
  - by apply delete_constraints.
Qed.

Lemma exec_all_constraints sts t :
  constraints_ok t = true → constraints_ok (exec_all sts t) = true.
Proof.
  unfold exec_all. revert t. induction sts as [|st sts IH]; intros t Hok; [done|].
  simpl. apply IH. by apply exec_constraints.
Qed.

Lemma constraints_at_most_one t : constraints_ok t = true → at_most_one_waiting t.
Proof. intros [_ Hi]%andb_true_iff. by apply index_at_most_one. Qed.

Lemma filter_waiting_app t e :
  List.filter is_waiting (t ++ [e]) =
  (List.filter is_waiting t ++ if is_waiting e then [e] else [])%list.
Proof. rewrite List.filter_app. simpl. by destruct (is_waiting e). Qed.

Lemma deleted_not_waiting user t :
  user ∉ map user_id (List.filter is_waiting (delete (waiting_entry_of user) t)).
Proof.
  intros (e & -> & Hin)%list_elem_of_fmap_1.
  apply list_elem_of_In, filter_In in Hin as [Hin Hw].
  unfold delete, delete_where in Hin. apply filter_In in Hin as [_ Hdel].
  unfold waiting_entry_of, eqb_uuid in Hdel. rewrite Hw in Hdel.
  by rewrite bool_decide_eq_true_2 in Hdel.
Qed.

(** After the delete of [joinQueue], its insert satisfies the
    constraints: the new key is fresh and the participant has no waiting
    entry left. *)
Lemma insert_after_delete new_id user rating now settings t :
  constraints_ok t = true → new_id ∉ map id t →
  constraints_ok (delete (waiting_entry_of user) t
                  ++ [new_entry new_id user rating now settings]) = true.
Proof.
  intros Hok Hfresh.
  pose proof (delete_constraints (waiting_entry_of user) t Hok)
    as [Hk%bool_decide_eq_true Hi%bool_decide_eq_true]%andb_true_iff.
  apply andb_true_iff. split; apply bool_decide_eq_true.
  - rewrite map_app. apply NoDup_app. split; [done|]. split; [|apply NoDup_singleton].
    intros x Hx [= ->]%list_elem_of_singleton. apply Hfresh.
    apply list_elem_of_fmap_1 in Hx as (e & -> & Hin).
    apply list_elem_of_fmap_2.
    apply list_elem_of_In, filter_In in Hin as [Hin _]. by apply list_elem_of_In.
  - rewrite filter_waiting_app. simpl. rewrite map_app. simpl.
    apply NoDup_app. split; [done|]. split; [|apply NoDup_singleton].
    intros x Hx ->%list_elem_of_singleton.
    by apply (deleted_not_waiting user t).
Qed.

Lemma second_waiting_rejected t e e' :
  is_waiting e = true → is_waiting e' = true → user_id e' = user_id e →
  insert e' (t ++ [e]) = None.
Proof.
  intros Hw Hw' Hu. unfold insert, guarded, constraints_ok.
  assert (one_active_queue_per_user_waiting ((t ++ [e]) ++ [e']) = false) as ->;
    [|by rewrite andb_false_r].
  apply bool_decide_eq_false. rewrite !filter_waiting_app, Hw, Hw', !map_app. simpl.
  rewrite Hu. intros Hnd. apply NoDup_app in Hnd as (Hnd & Hdis & _).
  apply (Hdis (user_id e)); set_solver.
Qed.

(** C8. On a table that satisfies its constraints, [joinQueue] first
    deletes every waiting entry of the participant and then inserts the
    new waiting entry, which the constraints accept; that entry is then
    the participant's only waiting entry.  The partial unique index
    rejects a second waiting entry of the same participant, and after any
    further statements at most one entry of each participant is waiting. *)
Theorem joinQueue_keeps_one_waiting new_id user rating now settings t sts :
  constraints_ok t = true →
  new_id ∉ map id t →
  let t1 := delete (waiting_entry_of user) t in
  let e := new_entry new_id user rating now settings in
  List.filter (waiting_entry_of user) t1 = [] ∧
  joinQueue new_id user rating now settings t
    = ((t1 ++ [e])%list, Some (e, fallback_timer settings e)) ∧
  List.filter (waiting_entry_of user) (t1 ++ [e]) = [e] ∧
  at_most_one_waiting t1 ∧
  at_most_one_waiting (t1 ++ [e]) ∧
  (∀ e', is_waiting e' = true → user_id e' = user → insert e' (t1 ++ [e]) = None) ∧
  at_most_one_waiting (exec_all sts (t1 ++ [e])).
Proof.
  intros Hok Hfresh t1 e.
  pose proof (insert_after_delete new_id user rating now settings t Hok Hfresh) as Hins.
  fold t1 e in Hins.
  assert (List.filter (waiting_entry_of user) t1 = []) as Hnone.
  { apply no_waiting_entry, deleted_not_waiting. }
  split; [done|]. split.
  { unfold joinQueue, insert, guarded. fold t1 e. by rewrite Hins. }
  split.
  { rewrite List.filter_app, Hnone. simpl. unfold waiting_entry_of, eqb_uuid. simpl.
    by rewrite bool_decide_eq_true_2. }
  split; [by apply constraints_at_most_one, delete_constraints|].
  split; [by apply constraints_at_most_one|].
  split; [|by apply constraints_at_most_one, exec_all_constraints].
  intros e' Hw' Hu'. by apply second_waiting_rejected.
Qed.

(** ** Example data: alice waits, bob has been matched *)

Definition rapid_ai : MatchSettings :=
  {| ms_format := "LD"; ms_mode := unranked; ms_opponentType := human_then_ai |}.

Definition alice_waiting : QueueEntry := new_entry "q-1" "alice" 1200 0 rapid_ai.

Definition bob_matched : QueueEntry :=
  mark_matched "room-0" 1 (new_entry "q-0" "bob" 1250 0 rapid_ai).

Lemma joinQueue_keeps_one_waiting_witness :
  let t := [bob_matched; alice_waiting] in
  let e := new_entry "q-2" "alice" 1200 7 rapid_ai in
  List.filter (waiting_entry_of "alice") [bob_matched] = [] ∧
  joinQueue "q-2" "alice" 1200 7 rapid_ai t
    = ([bob_matched; e], Some (e, Some ("q-2", 30000))) ∧
  List.filter (waiting_entry_of "alice") [bob_matched; e] = [e] ∧
  at_most_one_waiting [bob_matched] ∧
  at_most_one_waiting [bob_matched; e] ∧
  (∀ e', is_waiting e' = true → user_id e' = "alice" → insert e' [bob_matched; e] = None) ∧
  at_most_one_waiting (exec_all [cancelQueue "q-2"; Insert alice_waiting] [bob_matched; e]).
Proof.
  apply (joinQueue_keeps_one_waiting "q-2" "alice" 1200 7 rapid_ai
           [bob_matched; alice_waiting] [cancelQueue "q-2"; Insert alice_waiting]).
  - vm_compute. reflexivity.
  - apply (bool_decide_unpack _). vm_compute. exact I.
Defined.

(** ** The AI fallback *)

(** For anybody but an admin the room insert is rejected as long as the
    user has no participant row for the new room, and [createAIMatch]
    leaves the store as it was. *)
Lemma createAIMatch_rejected user new_room now entry s :
  (∀ p, p ∈ debate_participants s → p_room_id p ≠ new_room) →
  createAIMatch user false new_room now entry s = s.
Proof.
  intros Hfresh. unfold createAIMatch, can_view_room. cbn [r_id].
  assert (existsb (λ p, eqb_uuid (p_room_id p) new_room
                        && bool_decide (p_user_id p = Some user))
            (debate_participants s) = false) as ->; [|done].
  induction (debate_participants s) as [|p ps IH]; [done|]. cbn [existsb].
  unfold eqb_uuid at 1. rewrite bool_decide_eq_false_2 by (apply Hfresh; left).
  cbn [andb orb]. apply IH. intros q Hq. apply Hfresh. by right.
Qed.

(** For an admin the last statement of [createAIMatch] rewrites the
    user's entry with the given key whatever its status. *)
Lemma createAIMatch_rewrites_entry user new_room now entry (e : QueueEntry) s :
  e ∈ match_queue_entries s → id e = id entry → user_id e = user →
  constraints_ok (match_queue_entries s) = true →
  mark_matched new_room now e
    ∈ match_queue_entries (createAIMatch user true new_room now entry s).
Proof.
  intros Hin Hid Huser Hok.
  pose (p := λ e0 : QueueEntry, eqb_uuid (id e0) (id entry) && eqb_uuid (user_id e0) user).
  pose (t' := update_where p (mark_matched new_room now) (match_queue_entries s)).
  unfold createAIMatch, can_view_room. rewrite orb_true_r.
  cbn [negb match_queue_entries exec update r_id].
  change (mark_matched new_room now e ∈ default (match_queue_entries s) (guarded t')).
  assert (mark_matched new_room now e ∈ t') as Hin'.
  { unfold t', update_where. apply list_elem_of_fmap. exists e. split; [|done].
    unfold p, eqb_uuid. by rewrite !bool_decide_eq_true_2. }
  assert (constraints_ok t' = true) as Hok'.
  { unfold constraints_ok, pkey_ok, one_active_queue_per_user_waiting in *.
    apply andb_true_iff in Hok as [Hk%bool_decide_eq_true Hi%bool_decide_eq_true].
    apply andb_true_iff. split; apply bool_decide_eq_true.
    - unfold t'. by rewrite (update_where_keys id).
    - unfold t', update_where. clear -Hi.
      induction (match_queue_entries s) as [|x t IH]; simpl in *; [constructor|].
      destruct (p x) eqn:Hp; simpl.
      + destruct (is_waiting x); simpl in *; [apply NoDup_cons in Hi as [_ Hi]|]; by apply IH.
      + destruct (is_waiting x) eqn:Hw; simpl in *; [|by apply IH].
        apply NoDup_cons in Hi as [Hnot Hi]. apply NoDup_cons. split; [|by apply IH].
        intros (y & Hy & Hin)%list_elem_of_fmap_1. apply Hnot. rewrite Hy.
        apply list_elem_of_In, filter_In in Hin as [Hin Hwy].
        apply in_map_iff in Hin as (z & Hz & Hin).
        destruct (p z); [subst y; discriminate Hwy|subst z].
        apply list_elem_of_fmap_2, list_elem_of_In, filter_In. done. }
  unfold guarded. by rewrite Hok'.
Qed.

(** When the timer fires and nothing interferes: a waiting entry is handed
    to [createAIMatch]; any other entry leaves the store as it was. *)
Lemma fallback_fires_on_waiting user admin new_room entryId now s (e : QueueEntry) :
  reread entryId s = Some e → is_waiting e = true →
  fallback_fires user admin new_room entryId now s
    = createAIMatch user admin new_room now e s.
Proof. unfold fallback_fires, fallback_act. by intros -> ->. Qed.

Lemma fallback_fires_not_waiting user admin new_room entryId now s :
  (∀ e, reread entryId s = Some e → is_waiting e = false) →
  fallback_fires user admin new_room entryId now s = s.
Proof.
  unfold fallback_fires, fallback_act. intros H.
  destruct (reread entryId s) as [e|]; [|done]. by rewrite (H e).
Qed.

Lemma createAIMatch_room user new_room now entry s :
  ∃ room, debate_rooms (createAIMatch user true new_room now entry s)
            = (debate_rooms s ++ [room])%list ∧
          r_id room = new_room ∧ is_ai_opponent room = true.
Proof.
  unfold createAIMatch, can_view_room. rewrite orb_true_r. by eexists.
Qed.

Definition store0 : Store :=
  {| match_queue_entries := [alice_waiting]; debate_rooms := []; debate_participants := [] |}.

(** C9. Alice's entry q-1 is waiting when its fallback timer fires.  If
    alice is an ordinary user, the insert of the AI room is rejected and
    the timer changes nothing: no session is created and the entry stays
    waiting, with or without a Matcher.  If alice is an admin and the
    Matcher claims the entry between the timer's re-read and its writes:
    the re-read sees [waiting]; the Matcher's conditional transition
    succeeds and records its room; the timer then creates the AI room and
    its update, keyed by [id] with no test of the status, replaces the
    Matcher's room on the already matched entry. *)
Theorem fallback_overwrites_match :
  let seen := reread "q-1" store0 in
  let after_matcher := matcher_claims "q-1" "room-human" 5 store0 in
  let after_timer := fallback_act "alice" true "room-ai" 9 seen after_matcher.1 in
  (status <$> seen) = Some waiting ∧
  fallback_fires "alice" false "room-ai" "q-1" 9 store0 = store0 ∧
  fallback_act "alice" false "room-ai" 9 seen after_matcher.1 = after_matcher.1 ∧
  after_matcher.2 = true ∧
  map (λ e, (status e, room_id e)) (match_queue_entries after_matcher.1)
    = [(matched, Some "room-human")] ∧
  map (λ e, (status e, room_id e)) (match_queue_entries after_timer)
    = [(matched, Some "room-ai")] ∧
  map (λ r, (r_id r, is_ai_opponent r)) (debate_rooms after_timer) = [("room-ai", true)].
Proof. vm_compute. repeat split. Qed.

End QueueFacts.

(* ===================================================================== *)
(** * The rating engine: footprint, counters and exact arithmetic          *)
(* ===================================================================== *)

Module EloMore.
Import Elo EloFacts.

Lemma checks_inl_answer db roomId r dA dB :
  checks db roomId = inl r → r ≠ EloUpdated dA dB.
Proof.
  unfold checks. repeat case_match; intros [= <-]; discriminate.
Qed.

Lemma checks_room_id db roomId s :
  checks db roomId = inr s → room_id (s_room s) = roomId.
Proof.
  intros (_ & Hroom & _)%checks_inr. unfold single in Hroom.
  destruct (select_where _ _) as [|r [|? ?]] eqn:Hsel; try discriminate.
  injection Hroom as <-.
  assert (In r (select_where (λ r0, eqb_uuid (room_id r0) roomId) (debate_rooms db)))
    as Hin by (rewrite Hsel; by left).
  apply filter_In in Hin as [_ Heq]. by apply bool_decide_eq_true in Heq.
Qed.

Section Generic.
Context {number : Type} `{JsNumber number}.

(** A profile that is neither of the two the settlement is about is left
    exactly as it was. *)
Theorem settle_keeps_other_profiles now db roomId s (p : profile) :
  checks db roomId = inr s →
  p ∈ profiles db →
  prof_id p ≠ prof_id (s_userA s) →
  prof_id p ≠ prof_id (s_userB s) →
  p ∈ profiles (settle now db roomId).2.
Proof.
  intros Hc Hin HA HB. rewrite (settle_inr _ _ _ _ Hc). cbn [snd].
  rewrite writes_profiles. apply list_elem_of_fmap. exists p. split; [|done].
  unfold rewrite_row, eqb_uuid. cbv zeta.
  rewrite (bool_decide_eq_false_2 _ HA). by rewrite (bool_decide_eq_false_2 _ HB).
Qed.

(** The side credited with a decisive result. *)
Definition a_won (s : settlement) : bool :=
  bool_decide (s_winnerUserId s = Some (prof_user_id (s_userA s))).


(** For exactly two submissions the handler's test is the consistency
    rule; and a list that holds a win and a loss passes it whatever else
    it holds. *)
Theorem consistency_test (s1 s2 : submission) (subs : list submission) :
  ((hasWin [s1; s2] && hasLoss [s1; s2]) || allDraw [s1; s2] = true
     ↔ consistent_pair (submitted_result s1) (submitted_result s2)) ∧
  (win ∈ results_of subs → loss ∈ results_of subs →
     (hasWin subs && hasLoss subs) || allDraw subs = true).
Proof.
  split; [split; [apply consistent_two|]|].
  - unfold hasWin, hasLoss, allDraw, results_of, consistent_pair. cbn [map].
    intros [[-> ->]|[[-> ->]|[-> ->]]]; vm_compute; reflexivity.
  - intros Hw Hl. unfold hasWin, hasLoss.
    by rewrite !bool_decide_eq_true_2.
Qed.

End Generic.

(** ** Exact arithmetic *)

Lemma Rpower_10_pos x : (0 < Rpower 10 x)%R.
Proof. unfold Rpower. apply exp_pos. Qed.

Lemma expected_range a b : (0 < expected (number := R) a b < 1)%R.
Proof.
  unfold expected. cbn [of_int js_add js_sub js_div Math_pow real_number].
  pose proof (Rpower_10_pos ((IZR b - IZR a) / 400)) as HP.
  set (P := Rpower 10 ((IZR b - IZR a) / 400)) in *.
  split.
  - apply Rdiv_lt_0_compat; lra.
  - apply (Rmult_lt_reg_r (1 + P)); [lra|]. field_simplify; lra.
Qed.

Lemma expected_sum a b :
  (expected (number := R) a b + expected (number := R) b a = 1)%R.
Proof.
  unfold expected. cbn [of_int js_add js_sub js_div Math_pow real_number].
  replace ((IZR a - IZR b) / 400)%R with (- ((IZR b - IZR a) / 400))%R by lra.
  rewrite Rpower_Ropp.
  pose proof (Rpower_10_pos ((IZR b - IZR a) / 400)) as HP.
  set (P := Rpower 10 ((IZR b - IZR a) / 400)) in *.
  assert (0 < / P)%R by (by apply Rinv_0_lt_compat).
  field; repeat split; lra.
Qed.

(** [Math.round] is within a half of its argument. *)
Lemma Math_round_spec (x : R) :
  (IZR (Math_round x) <= x + 1 / 2 < IZR (Math_round x) + 1)%R.
Proof.
  cbn [Math_round real_number].
  destruct (base_Int_part (x + / 2)) as [Hle Hgt]. lra.
Qed.

Lemma Q2R_actual_range (sc : Q) :
  sc = 1%Q ∨ sc = 0%Q ∨ sc = (1 # 2)%Q → (0 <= Q2R sc <= 1)%R.
Proof. intros [-> | [-> | ->]]; unfold Q2R; simpl; lra. Qed.

Lemma scores_cases (s : settlement) :
  (scoreA s = 1%Q ∧ scoreB s = 0%Q ∧ s_isDraw s = false ∧ a_won s = true) ∨
  (scoreA s = 0%Q ∧ scoreB s = 1%Q ∧ s_isDraw s = false ∧ a_won s = false) ∨
  (scoreA s = (1 # 2)%Q ∧ scoreB s = (1 # 2)%Q ∧ s_isDraw s = true).
Proof.
  unfold scoreA, scoreB, scores, a_won. destruct (s_isDraw s); [by right; right|].
  case_bool_decide; [left|right; left]; done.
Qed.

Lemma getKFactor_pos r : 0 < getKFactor r.
Proof. unfold getKFactor. repeat case_match; lia. Qed.

Lemma newRating_range r k (sc : Q) (e : R) :
  0 < k → (0 <= Q2R sc <= 1)%R → (0 < e < 1)%R →
  r - k ≤ newRating r k sc e ≤ r + k.
Proof.
  intros Hk Hsc He. unfold newRating.
  cbn [of_int of_ratio js_add js_sub js_mul real_number].
  set (x := (IZR k * (Q2R sc - e))%R).
  assert (- IZR k < x < IZR k)%R as Hx.
  { apply IZR_lt in Hk. unfold x. split; nra. }
  pose proof (Math_round_spec (IZR r + x)%R) as [Hle Hlt].
  set (n := Math_round (IZR r + x)%R) in *.
  split.
  - apply Z.lt_succ_r, Z.succ_lt_mono, lt_IZR.
    rewrite !succ_IZR, minus_IZR. lra.
  - apply Z.lt_succ_r, lt_IZR. rewrite succ_IZR, plus_IZR. lra.
Qed.

Lemma newRating_win r k (e : R) :
  0 < k → (0 < e < 1)%R → r ≤ newRating r k 1 e.
Proof.
  intros Hk He. unfold newRating.
  cbn [of_int of_ratio js_add js_sub js_mul real_number]. rewrite Q2R_one.
  set (x := (IZR k * (1 - e))%R).
  assert (0 < x)%R as Hx by (apply IZR_lt in Hk; unfold x; nra).
  pose proof (Math_round_spec (IZR r + x)%R) as [Hle Hlt].
  apply Z.lt_succ_r, Z.succ_lt_mono, lt_IZR. rewrite !succ_IZR. lra.
Qed.

Lemma newRating_loss r k (e : R) :
  0 < k → (0 < e < 1)%R → newRating r k 0 e ≤ r.
Proof.
  intros Hk He. unfold newRating.
  cbn [of_int of_ratio js_add js_sub js_mul real_number]. rewrite Q2R_zero.
  set (x := (IZR k * (0 - e))%R).
  assert (x < 0)%R as Hx by (apply IZR_lt in Hk; unfold x; nra).
  pose proof (Math_round_spec (IZR r + x)%R) as [Hle Hlt].
  apply Z.lt_succ_r, lt_IZR. rewrite succ_IZR. lra.
Qed.

(** In exact arithmetic no rating moves by more than its K-factor, the
    side credited with a decisive result never loses points and the other
    side never gains any. *)
Theorem rating_moves_within_K now db roomId s :
  checks db roomId = inr s →
  ∃ dA dB,
    (settle (number := R) now db roomId).1 = EloUpdated dA dB ∧
    - getKFactor (ratingA s) ≤ dA ≤ getKFactor (ratingA s) ∧
    - getKFactor (ratingB s) ≤ dB ≤ getKFactor (ratingB s) ∧
    (s_isDraw s = false →
       if a_won s then 0 ≤ dA ∧ dB ≤ 0 else dA ≤ 0 ∧ 0 ≤ dB).
Proof.
  intros Hc. rewrite (settle_inr _ _ _ _ Hc). cbn [fst]. do 2 eexists.
  split; [reflexivity|].
  pose proof (getKFactor_pos (ratingA s)) as HkA.
  pose proof (getKFactor_pos (ratingB s)) as HkB.
  pose proof (expected_range (ratingA s) (ratingB s)) as HeA.
  pose proof (expected_range (ratingB s) (ratingA s)) as HeB.
  assert (0 <= Q2R (scoreA s) <= 1 ∧ 0 <= Q2R (scoreB s) <= 1)%R as [HsA HsB].
  { destruct (scores_cases s) as [(-> & -> & _)|[(-> & -> & _)|(-> & -> & _)]];
      split; apply Q2R_actual_range; tauto. }
  pose proof (newRating_range (ratingA s) _ _ _ HkA HsA HeA) as HrA.
  pose proof (newRating_range (ratingB s) _ _ _ HkB HsB HeB) as HrB.
  fold (newRatingA s) in HrA. fold (newRatingB s) in HrB.
  split; [lia|]. split; [lia|]. intros Hdraw.
  destruct (scores_cases s) as [(EA & EB & _ & ->)|[(EA & EB & _ & ->)|(_ & _ & Hd)]];
    [| |congruence]; unfold newRatingA, newRatingB; rewrite EA, EB.
  - pose proof (newRating_win (ratingA s) _ _ HkA HeA).
    pose proof (newRating_loss (ratingB s) _ _ HkB HeB). lia.
  - pose proof (newRating_loss (ratingA s) _ _ HkA HeA).
    pose proof (newRating_win (ratingB s) _ _ HkB HeB). lia.
Qed.

(** In exact arithmetic, when both sides are in the same K tier the two
    changes cancel, up to the one point that rounding a half upwards on
    both sides can add. *)
Theorem same_tier_conserves_points now db roomId s :
  checks db roomId = inr s →
  getKFactor (ratingA s) = getKFactor (ratingB s) →
  ∃ dA dB,
    (settle (number := R) now db roomId).1 = EloUpdated dA dB ∧
    (dA + dB = 0 ∨ dA + dB = 1).
Proof.
  intros Hc HK. rewrite (settle_inr _ _ _ _ Hc). cbn [fst]. do 2 eexists.
  split; [reflexivity|].
  unfold newRatingA, newRatingB, newRating. rewrite <- HK.
  cbn [of_int of_ratio js_add js_sub js_mul real_number].
  pose proof (expected_sum (ratingA s) (ratingB s)) as Hsum.
  set (eA := expected (ratingA s) (ratingB s)) in *.
  set (eB := expected (ratingB s) (ratingA s)) in *.
  assert (Q2R (scoreB s) = 1 - Q2R (scoreA s))%R as HsB.
  { destruct (scores_cases s) as [(-> & -> & _)|[(-> & -> & _)|(-> & -> & _)]];
      unfold Q2R; simpl; lra. }
  rewrite HsB. replace eB with (1 - eA)%R by lra.
  set (x := (IZR (getKFactor (ratingA s)) * (Q2R (scoreA s) - eA))%R).
  replace (IZR (getKFactor (ratingA s)) * (1 - Q2R (scoreA s) - (1 - eA)))%R
    with (- x)%R by (unfold x; lra).
  pose proof (Math_round_spec (IZR (ratingA s) + x)%R) as [HleA HltA].
  pose proof (Math_round_spec (IZR (ratingB s) + - x)%R) as [HleB HltB].
  set (nA := Math_round (IZR (ratingA s) + x)%R) in *.
  set (nB := Math_round (IZR (ratingB s) + - x)%R) in *.
  assert (nA + nB < ratingA s + ratingB s + 2) as Hup.
  { apply lt_IZR. rewrite !plus_IZR. lra. }
  assert (ratingA s + ratingB s - 1 < nA + nB) as Hlow.
  { apply lt_IZR. rewrite minus_IZR, !plus_IZR. lra. }
  lia.
Qed.

(** ** The examples *)

Definition carol : profile :=
  {| prof_id := "p-carol"; prof_user_id := "carol";
     elo_by_format := {[ "AP" := 1850 ]};
     total_debates := Some 40; total_wins := None; current_streak := Some 4 |}.

(** The store of the example room with a bystander's profile in it. *)
Definition db_with_carol : Db :=
  {| debate_rooms := debate_rooms (db_after win loss);
     match_result_submissions := match_result_submissions (db_after win loss);
     debate_participants := debate_participants (db_after win loss);
     profiles := [alice; carol; bob];
     match_history := [] |}.

Lemma settle_keeps_other_profiles_witness :
  carol ∈ profiles (settle (number := R) 0 db_with_carol "room-1").2.
Proof.
  apply (settle_keeps_other_profiles (number := R) 0 db_with_carol "room-1"
           (settlement_after win loss) carol).
  - vm_compute. reflexivity.
  - cbn [db_with_carol profiles]. set_solver.
  - discriminate.
  - discriminate.
Defined.


Lemma rating_moves_within_K_witness :
  ∃ dA dB,
    (settle (number := R) 0 (db_after win loss) "room-1").1 = EloUpdated dA dB ∧
    -20 ≤ dA ≤ 20 ∧ -20 ≤ dB ≤ 20 ∧
    (false = false → 0 ≤ dA ∧ dB ≤ 0).
Proof.
  apply (rating_moves_within_K 0 (db_after win loss) "room-1" (settlement_after win loss)).
  vm_compute. reflexivity.
Defined.

Lemma same_tier_conserves_points_witness :
  ∃ dA dB,
    (settle (number := R) 0 (db_after win loss) "room-1").1 = EloUpdated dA dB ∧
    (dA + dB = 0 ∨ dA + dB = 1).
Proof.
  apply (same_tier_conserves_points 0 (db_after win loss) "room-1"
           (settlement_after win loss)).
  - vm_compute. reflexivity.
  - vm_compute. reflexivity.
Defined.

End EloMore.

(* ===================================================================== *)
(** * The rating engine over the store of the migrations: facts            *)
(* ===================================================================== *)

Module EloStoreFacts.
Import Elo EloFacts EloMore EloStore.

(** Whether an update is accepted depends on the values it writes, which
    come from the profile the handler read, not on the row it lands on. *)
Lemma profile_accepted_apply fmt nr sc (u p : profile) :
  profile_accepted (apply_result fmt nr sc u p)
    = profile_accepted (apply_result fmt nr sc u u).
Proof. done. Qed.

Lemma forallb_accepted fmt nr sc u (l : list profile) :
  forallb (λ p, profile_accepted (apply_result fmt nr sc u p)) l
    = match l with
      | [] => true
      | _ => profile_accepted (apply_result fmt nr sc u u)
      end.
Proof.
  induction l as [|x l IH]; [done|]. cbn [forallb]. rewrite IH.
  rewrite (profile_accepted_apply _ _ _ u x).
  destruct (profile_accepted _), l; done.
Qed.

Lemma update_profile_accepted i fmt nr sc u t :
  profile_accepted (apply_result fmt nr sc u u) = true →
  update_profile i (apply_result fmt nr sc u) t
    = update_where (λ p, eqb_uuid (prof_id p) i) (apply_result fmt nr sc u) t.
Proof.
  intros Hok. unfold update_profile. rewrite forallb_accepted, Hok.
  by destruct (select_where _ t).
Qed.

Lemma update_profile_rejected i fmt nr sc u t :
  profile_accepted (apply_result fmt nr sc u u) = false →
  select_where (λ p, eqb_uuid (prof_id p) i) t ≠ [] →
  update_profile i (apply_result fmt nr sc u) t = t.
Proof.
  intros Hno Hrow. unfold update_profile. rewrite forallb_accepted, Hno.
  by destruct (select_where _ t).
Qed.

Lemma update_profile_keys {K} (key : profile → K) i fmt nr sc u t :
  (∀ p, key (apply_result fmt nr sc u p) = key p) →
  map key (update_profile i (apply_result fmt nr sc u) t) = map key t.
Proof.
  intros Hkey. unfold update_profile. destruct (forallb _ _); [|done].
  by apply update_where_keys.
Qed.

Section Generic.
Context {number : Type} `{JsNumber number}.

(** When the store accepts the three statements, the handler does to it
    what [Elo.settle] says. *)
Lemma writes_checked_accepted now s db :
  accepted now s = true → writes_checked now s db = writes now s db.
Proof.
  unfold accepted. intros [[HA HB]%andb_true_iff Hh]%andb_true_iff.
  unfold writes_checked, writes, insert_history. cbv zeta.
  rewrite !update_profile_accepted by done. by rewrite Hh.
Qed.

Lemma settle_checked_accepted now db roomId s :
  checks db roomId = inr s → accepted now s = true →
  settle_checked now db roomId = settle now db roomId.
Proof.
  intros Hc Hok. unfold settle_checked, settle. rewrite Hc.
  by rewrite writes_checked_accepted.
Qed.

(** The answer never depends on what the store accepts. *)
Lemma settle_checked_answer now db roomId :
  (settle_checked now db roomId).1 = (settle now db roomId).1.
Proof. unfold settle_checked, settle. by destruct (checks db roomId). Qed.

Lemma settle_checked_inl now db roomId r :
  checks db roomId = inl r → settle_checked now db roomId = (r, db).
Proof. unfold settle_checked. by intros ->. Qed.

Lemma settle_checked_inr now db roomId s :
  checks db roomId = inr s →
  settle_checked now db roomId =
    (EloUpdated (newRatingA s - ratingA s) (newRatingB s - ratingB s),
     writes_checked now s db).
Proof. unfold settle_checked. by intros ->. Qed.

(** What a call may touch, whatever the store accepts: rooms, submissions
    and participants are never written; no profile is added or removed
    and none changes its keys; and either the read phase went through,
    the answer is 'ELO updated' and the history has one more row, of this
    room, exactly when the store takes that row, or the answer is another
    one and the whole store is as it was.  The answer says 'ELO updated'
    also when the history row is rejected. *)
Theorem settle_checked_footprint now db roomId :
  let answer := (settle_checked now db roomId).1 in
  let db' := (settle_checked now db roomId).2 in
  debate_rooms db' = debate_rooms db ∧
  match_result_submissions db' = match_result_submissions db ∧
  debate_participants db' = debate_participants db ∧
  map prof_id (profiles db') = map prof_id (profiles db) ∧
  map prof_user_id (profiles db') = map prof_user_id (profiles db) ∧
  ((∃ s, checks db roomId = inr s ∧
         answer = EloUpdated (newRatingA s - ratingA s) (newRatingB s - ratingB s) ∧
         h_room_id (history_of now s) = roomId ∧
         match_history db' =
           if history_accepted (history_of now s)
           then (match_history db ++ [history_of now s])%list
           else match_history db)
   ∨ (db' = db ∧ ∀ dA dB, answer ≠ EloUpdated dA dB)).
Proof.
  cbv zeta. destruct (checks db roomId) as [r|s] eqn:Hc.
  - rewrite (settle_checked_inl _ _ _ _ Hc). cbn [fst snd].
    repeat split. right. split; [done|]. intros dA dB.
    by apply (checks_inl_answer db roomId).
  - rewrite (settle_checked_inr _ _ _ _ Hc). cbn [fst snd].
    unfold writes_checked. cbv zeta.
    cbn [debate_rooms match_result_submissions debate_participants profiles match_history].
    split; [done|]. split; [done|]. split; [done|]. split; [|split].
    + by rewrite !update_profile_keys.
    + by rewrite !update_profile_keys.
    + left. exists s. split; [done|]. split; [done|]. split; [|done].
      cbn [history_of h_room_id]. by apply (checks_room_id db).
Qed.

End Generic.

(** ** Exact arithmetic *)



(** ** The example room *)

Lemma newRatingA_example : newRatingA (number := R) (settlement_after win loss) = 1210.
Proof.
  unfold newRatingA.
  change (ratingA (settlement_after win loss)) with 1200.
  change (ratingB (settlement_after win loss)) with 1200.
  change (scoreA (settlement_after win loss)) with 1%Q.
  change (getKFactor 1200) with (2 * 10).
  by rewrite newRating_same_win.
Qed.

Lemma newRatingB_example : newRatingB (number := R) (settlement_after win loss) = 1190.
Proof.
  unfold newRatingB.
  change (ratingA (settlement_after win loss)) with 1200.
  change (ratingB (settlement_after win loss)) with 1200.
  change (scoreB (settlement_after win loss)) with 0%Q.
  change (getKFactor 1200) with (2 * 10).
  by rewrite newRating_same_loss.
Qed.

Lemma accepted_example now :
  accepted (number := R) now (settlement_after win loss) = true.
Proof.
  unfold accepted, history_accepted.
  cbn [history_of rating_before_a rating_after_a rating_before_b rating_after_b
       duration_seconds].
  rewrite newRatingA_example, newRatingB_example. reflexivity.
Qed.

(** The stored rating the handler starts from, the K tier and the score
    of a result, written out. *)
Lemma rating_of_stored (p : profile) (fmt : string) :
  rating_of p fmt =
    match elo_by_format p !! fmt with
    | Some r => if r =? 0 then 1200 else r
    | None => 1200
    end.
Proof. done. Qed.


Lemma getKFactor_40 (r : Z) : getKFactor r = 40 ↔ r < 1200.
Proof.
  unfold getKFactor. destruct (Z.ltb_spec r 1200); [done|].
  destruct (Z.ltb_spec r 2000); split; (discriminate || lia).
Qed.


(** C2 (as the code has it). With both sides stored at 1200 and a
    decisive win for A: K = 40 applies strictly below 1200 only, so both
    sides get K = 20; expected(A) is 1/2; the answer gives the changes +10
    and -10; and when the store accepts the writes (the counters and the
    duration fit their INTEGER columns), the stored ratings of the format
    become 1210 for A and 1190 for B and the history row records 1200 to
    1210 and 1200 to 1190.  On these inputs every value of
    the computation is an integer or a half, so the exact reading is also
    what binary floating point gives. *)
Theorem equal_1200_win_moves_10 now db roomId s :
  checks db roomId = inr s →
  profiles_pkey db →
  elo_by_format (s_userA s) !! room_format (s_room s) = Some 1200 →
  elo_by_format (s_userB s) !! room_format (s_room s) = Some 1200 →
  s_isDraw s = false →
  s_winnerUserId s = Some (prof_user_id (s_userA s)) →
  let db' := (settle_checked (number := R) now db roomId).2 in
  let fmt := room_format (s_room s) in
  (∀ r, getKFactor r = 40 ↔ r < 1200) ∧
  getKFactor 1200 = 20 ∧
  ratingA s = 1200 ∧ ratingB s = 1200 ∧
  expected (number := R) 1200 1200 = (1 / 2)%R ∧
  (settle_checked (number := R) now db roomId).1 = EloUpdated 10 (-10) ∧
  (accepted (number := R) now s = true →
   (∃ pA pB,
      profile_by_id db' (prof_id (s_userA s)) = Some pA ∧
      profile_by_id db' (prof_id (s_userB s)) = Some pB ∧
      elo_by_format pA !! fmt = Some 1210 ∧
      elo_by_format pB !! fmt = Some 1190) ∧
   (∃ h, match_history db' = (match_history db ++ [h])%list ∧
         rating_before_a h = 1200 ∧ rating_after_a h = 1210 ∧
         rating_before_b h = 1200 ∧ rating_after_b h = 1190)).
Proof.
  intros Hc Hpk HeA HeB Hdraw Hwin. cbv zeta.
  assert (ratingA s = 1200) as HA.
  { unfold ratingA, format_of. by rewrite rating_of_stored, HeA. }
  assert (ratingB s = 1200) as HB.
  { unfold ratingB, format_of. by rewrite rating_of_stored, HeB. }
  assert (newRatingA (number := R) s = 1210) as HnA.
  { unfold newRatingA, scoreA, scores.
    rewrite Hdraw, Hwin, bool_decide_eq_true_2 by done. cbn [fst].
    rewrite HA, HB. change (getKFactor 1200) with (2 * 10).
    by rewrite newRating_same_win. }
  assert (newRatingB (number := R) s = 1190) as HnB.
  { unfold newRatingB, scoreB, scores.
    rewrite Hdraw, Hwin, bool_decide_eq_true_2 by done. cbn [snd].
    rewrite HA, HB. change (getKFactor 1200) with (2 * 10).
    by rewrite newRating_same_loss. }
  split; [apply getKFactor_40|]. split; [done|]. split; [done|]. split; [done|].
  split; [apply expected_same|].
  split; [by rewrite (settle_checked_inr _ _ _ _ Hc), HnA, HnB, HA, HB|].
  intros Hok.
  rewrite (settle_checked_accepted _ _ _ _ Hc Hok), (settle_inr _ _ _ _ Hc).
  cbn [snd].
  destruct (writes_rows (number := R) now _ _ _ Hc Hpk) as (HfA & HfB & _ & _).
  split.
  - do 2 eexists. split; [exact HfA|]. split; [exact HfB|].
    cbn [apply_result elo_by_format]. unfold format_of.
    by rewrite !lookup_insert_eq, HnA, HnB.
  - exists (history_of now s). split; [apply writes_history|].
    cbn [history_of rating_before_a rating_after_a rating_before_b rating_after_b].
    by rewrite HA, HB, HnA, HnB.
Qed.


Lemma equal_1200_win_moves_10_witness :
  (settle_checked (number := R) 0 (db_after win loss) "room-1").1 = EloUpdated 10 (-10) ∧
  ∃ pA pB,
    profile_by_id (settle_checked (number := R) 0 (db_after win loss) "room-1").2 "p-alice"
      = Some pA ∧
    profile_by_id (settle_checked (number := R) 0 (db_after win loss) "room-1").2 "p-bob"
      = Some pB ∧
    elo_by_format pA !! "AP" = Some 1210 ∧
    elo_by_format pB !! "AP" = Some 1190.
Proof.
  destruct (equal_1200_win_moves_10 0 (db_after win loss) "room-1"
              (settlement_after win loss)) as (_ & _ & _ & _ & _ & Hans & Hstored).
  - vm_compute. reflexivity.
  - apply (bool_decide_unpack _). vm_compute. exact I.
  - reflexivity.
  - reflexivity.
  - reflexivity.
  - reflexivity.
  - split; [exact Hans|]. exact (proj1 (Hstored (accepted_example 0))).
Defined.


End EloStoreFacts.

(* ===================================================================== *)
(** * Inconsistent results and the table of submissions                    *)
(* ===================================================================== *)

Module SubmissionsFacts.
Import Elo EloFacts Submissions.

Lemma exec_other_tables user st db :
  debate_rooms (exec user st db) = debate_rooms db ∧
  debate_participants (exec user st db) = debate_participants db ∧
  profiles (exec user st db) = profiles db ∧
  match_history (exec user st db) = match_history db.
Proof. destruct st; cbn [exec]; [|done..]. by destruct (_ && _). Qed.

(** A user who has a submission for a room cannot insert another one. *)
Lemma second_submission_rejected user roomId r db x :
  x ∈ match_result_submissions db →
  sub_room_id x = roomId → sub_user_id x = user →
  exec user (submit_result user roomId r) db = db.
Proof.
  intros Hx Hroom Huser. unfold submit_result. cbn [exec sub_user_id sub_room_id].
  assert (unique_submission
            (match_result_submissions db ++
             [{| sub_room_id := roomId; sub_user_id := user; submitted_result := r |}])
          = false) as ->; [|by rewrite andb_false_r].
  unfold unique_submission. apply bool_decide_eq_false_2.
  rewrite map_app. intros [_ [Hdisj _]]%NoDup_app.
  apply (Hdisj (roomId, user)).
  - apply list_elem_of_fmap. exists x. by rewrite Hroom, Huser.
  - cbn [map sub_room_id sub_user_id]. by left.
Qed.

(** A statement of a user who has a submission for the room leaves the
    submissions of the room as they are. *)
Lemma exec_keeps_room user st db roomId x :
  x ∈ match_result_submissions db →
  sub_room_id x = roomId → sub_user_id x = user →
  subs_of (exec user st db) roomId = subs_of db roomId ∧
  (∀ y, y ∈ match_result_submissions db → y ∈ match_result_submissions (exec user st db)).
Proof.
  intros Hx Hroom Huser. destruct st as [row|p f|p]; cbn [exec]; [|done..].
  destruct (bool_decide (sub_user_id row = user)) eqn:Hu; [|done].
  apply bool_decide_eq_true in Hu. cbn [andb].
  destruct (existsb _ _); [|done]. cbn [andb].
  destruct (unique_submission _) eqn:Huniq; [|done].
  unfold subs_of, select_where. cbn [match_result_submissions]. split.
  - rewrite List.filter_app. cbn [List.filter]. unfold eqb_uuid.
    case_bool_decide as Hr; [|by rewrite app_nil_r].
    exfalso. unfold unique_submission in Huniq. apply bool_decide_eq_true in Huniq.
    rewrite map_app in Huniq. apply NoDup_app in Huniq as [_ [Hdisj _]].
    apply (Hdisj (roomId, user)).
    + apply list_elem_of_fmap. exists x. by rewrite Hroom, Huser.
    + cbn [map]. rewrite Hr, Hu. by left.
  - intros y Hy. apply elem_of_app. by left.
Qed.

(** With two inconsistent submissions the read phase stops at the
    consistency test, whatever the rest of the store holds. *)
Lemma checks_two_inconsistent db roomId s1 s2 :
  subs_of db roomId = [s1; s2] →
  ¬ consistent_pair (submitted_result s1) (submitted_result s2) →
  checks db roomId =
    if bool_decide (roomId = "") then inl RoomIdRequired else
    match single (select_where (λ r, eqb_uuid (room_id r) roomId) (debate_rooms db)) with
    | None => inl RoomNotFound
    | Some room =>
        if negb (bool_decide (room_mode room = ranked)) || is_ai_opponent room
        then inl EloUpdateNotRequired else inl InconsistentResults
    end.
Proof.
  intros Hsubs Hinc. unfold checks. fold (subs_of db roomId). rewrite Hsubs.
  case_bool_decide; [done|]. destruct (single _) as [room|]; [|done].
  destruct (_ || _); [done|]. cbn [length Nat.ltb Nat.leb].
  destruct (negb _) eqn:Hcons; [done|].
  apply negb_false_iff, consistent_two in Hcons. done.
Qed.

Section Generic.
Context {number : Type} `{JsNumber number}.

(** C3 (as the code has it). When the room has exactly two submissions
    whose results are neither a win with a loss (in either order) nor two
    draws, [settle] returns the store as it was (no profile is rewritten,
    no history record is added, the room and its submissions are
    untouched) and for a ranked human-vs-human room it answers
    'Inconsistent results'.  The results cannot be resubmitted: a further
    submission of either user for the room is rejected, and whatever
    statements the two users send for the table, the two submissions of
    the room stay as they are, so that every later call of [settle] gives
    the same answer and again changes nothing. *)
Theorem inconsistent_results_stay now db roomId s1 s2 :
  subs_of db roomId = [s1; s2] →
  ¬ consistent_pair (submitted_result s1) (submitted_result s2) →
  (settle now db roomId).2 = db ∧
  (∀ room,
     roomId ≠ "" →
     select_where (λ r, eqb_uuid (room_id r) roomId) (debate_rooms db) = [room] →
     room_mode room = ranked →
     is_ai_opponent room = false →
     (settle now db roomId).1 = InconsistentResults) ∧
  (∀ user r, user = sub_user_id s1 ∨ user = sub_user_id s2 →
     exec user (submit_result user roomId r) db = db) ∧
  (∀ sts now',
     Forall (λ us, us.1 = sub_user_id s1 ∨ us.1 = sub_user_id s2) sts →
     subs_of (exec_all sts db) roomId = [s1; s2] ∧
     settle now' (exec_all sts db) roomId = ((settle now db roomId).1, exec_all sts db)).
Proof.
  intros Hsubs Hinc.
  destruct (inconsistent_results_leave_store now db roomId s1 s2 Hsubs Hinc)
    as [Hstore Hanswer].
  assert (s1 ∈ match_result_submissions db ∧ sub_room_id s1 = roomId ∧
          s2 ∈ match_result_submissions db ∧ sub_room_id s2 = roomId)
    as (Hin1 & Hr1 & Hin2 & Hr2).
  { assert (∀ x, x ∈ subs_of db roomId →
              x ∈ match_result_submissions db ∧ sub_room_id x = roomId) as Hsub.
    { intros x Hx. unfold subs_of, select_where in Hx.
      apply list_elem_of_In, filter_In in Hx as [Hx Hroom].
      split; [by apply list_elem_of_In|]. by apply bool_decide_eq_true in Hroom. }
    rewrite Hsubs in Hsub.
    destruct (Hsub s1) as [? ?]; [by left|].
    destruct (Hsub s2) as [? ?]; [right; by left|]. done. }
  split; [done|]. split; [done|]. split.
  - intros user r [-> | ->].
    + by apply (second_submission_rejected _ _ _ _ s1).
    + by apply (second_submission_rejected _ _ _ _ s2).
  - intros sts now' Hsts.
    assert (subs_of (exec_all sts db) roomId = [s1; s2] ∧
            debate_rooms (exec_all sts db) = debate_rooms db) as [Hsubs' Hrooms'].
    { revert db Hsubs Hin1 Hin2 Hstore Hanswer.
      induction Hsts as [|[u st] sts Hu _ IH]; intros db Hsubs Hin1 Hin2 _ _; [done|].
      cbn [exec_all foldl fst snd] in *.
      fold (exec_all sts (exec u st db)).
      assert (subs_of (exec u st db) roomId = subs_of db roomId ∧
              ∀ y, y ∈ match_result_submissions db →
                   y ∈ match_result_submissions (exec u st db)) as [Hkeep Hmono].
      { destruct Hu as [-> | ->].
        - by apply (exec_keeps_room _ _ _ _ s1).
        - by apply (exec_keeps_room _ _ _ _ s2). }
      destruct (IH (exec u st db)) as [IH1 IH2]; [congruence|auto|auto| | |].
      - by destruct (inconsistent_results_leave_store now (exec u st db) roomId s1 s2
                       ltac:(congruence) Hinc).
      - by destruct (inconsistent_results_leave_store now (exec u st db) roomId s1 s2
                       ltac:(congruence) Hinc).
      - split; [done|]. rewrite IH2. by destruct (exec_other_tables u st db). }
    split; [done|].
    unfold settle.
    rewrite (checks_two_inconsistent _ _ _ _ Hsubs' Hinc),
            (checks_two_inconsistent _ _ _ _ Hsubs Hinc), Hrooms'.
    case_bool_decide; [done|]. destruct (single _) as [room|]; [|done].
    by destruct (_ || _).
Qed.

End Generic.

Lemma inconsistent_results_stay_witness :
  (settle (number := R) 0 (db_after win win) "room-1").2 = db_after win win ∧
  (settle (number := R) 0 (db_after win win) "room-1").1 = InconsistentResults ∧
  exec "alice" (submit_result "alice" "room-1" loss) (db_after win win) = db_after win win.
Proof.
  destruct (inconsistent_results_stay (number := R) 0 (db_after win win) "room-1"
           {| sub_room_id := "room-1"; sub_user_id := "alice"; submitted_result := win |}
           {| sub_room_id := "room-1"; sub_user_id := "bob"; submitted_result := win |})
    as (Hstore & Hanswer & Hresubmit & _).
  - vm_compute. reflexivity.
  - unfold consistent_pair. simpl. intros [[_ H]|[[H _]|[H _]]]; discriminate H.
  - split; [exact Hstore|]. split.
    + apply (Hanswer room1).
      * discriminate.
      * vm_compute. reflexivity.
      * reflexivity.
      * reflexivity.
    + apply Hresubmit. by left.
Defined.

(** C3 as stated fails: the results cannot be resubmitted.  Alice and bob
    both claimed the win and [settle] answers 'Inconsistent results';
    alice then submits a loss, which would make the two results
    consistent: the store rejects her second submission, and [settle]
    answers as before. *)
Lemma win_win_cannot_be_resubmitted :
  let db := db_after win win in
  let db' := exec "alice" (submit_result "alice" "room-1" loss) db in
  (settle (number := R) 0 db "room-1").1 = InconsistentResults ∧
  db' = db ∧
  match_result_submissions db'
    = [ {| sub_room_id := "room-1"; sub_user_id := "alice"; submitted_result := win |};
        {| sub_room_id := "room-1"; sub_user_id := "bob"; submitted_result := win |} ] ∧
  (settle (number := R) 1 db' "room-1").1 = InconsistentResults.
Proof. vm_compute. repeat split. Qed.

End SubmissionsFacts.

(* ===================================================================== *)
(** * The results page: what it shows after a settlement                 *)
(* ===================================================================== *)

Module RoomResultsFacts.
Import Elo EloFacts EloMore EloStore EloStoreFacts RoomResults.

Lemma rating_of_nonzero p f : rating_of p f ≠ 0.
Proof.
  unfold rating_of. destruct (elo_by_format p !! f) as [r|]; [|done].
  destruct (r =? 0) eqn:E; [done|]. by apply Z.eqb_neq in E.
Qed.


Lemma filter_nil_filter {A} (p q : A → bool) l :
  List.filter p l = [] → List.filter p (List.filter q l) = [].
Proof.
  induction l as [|x l IH]; [done|]. cbn [List.filter].
  destruct (p x) eqn:Hp; [done|]. intros Hl.
  destruct (q x); cbn [List.filter]; rewrite ?Hp; auto.
Qed.



Section Generic.
Context {number : Type} `{JsNumber number}.

Lemma can_view_history now s viewer admin :
  can_view viewer admin (history_of now s) =
    bool_decide (viewer = prof_user_id (s_userA s))
    || bool_decide (viewer = prof_user_id (s_userB s)) || admin.
Proof. done. Qed.


Lemma fetched_after_first_checked now db roomId s viewer admin :
  checks db roomId = inr s →
  select_where (λ h, eqb_uuid (h_room_id h) roomId) (match_history db) = [] →
  fetched_history (settle_checked now db roomId).2 viewer admin roomId =
    if history_accepted (history_of now s) && can_view viewer admin (history_of now s)
    then Some (history_of now s) else None.
Proof.
  intros Hc Hnone. rewrite (settle_checked_inr _ _ _ _ Hc). cbn [snd].
  unfold writes_checked, insert_history. cbv zeta.
  unfold fetched_history, select_where in *. cbn [match_history].
  destruct (history_accepted _); cbn [andb].
  - rewrite !List.filter_app, (filter_nil_filter _ _ _ Hnone).
    cbn [app List.filter]. destruct (can_view _ _ _); [|done].
    cbn [List.filter history_of h_room_id]. unfold eqb_uuid.
    by rewrite (bool_decide_eq_true_2 _ (checks_room_id _ _ _ Hc)).
  - by rewrite (filter_nil_filter _ _ _ Hnone).
Qed.

(** After the first settlement of a room, when the store took the history
    row, the results page shows each of the two users the change the
    handler answered for their side, as long as that user's new rating is
    not 0, and nobody else is shown a figure, an admin included.  When the
    store refused the row (a rating or the duration does not fit an
    INTEGER column), the handler has answered the changes all the same
    and the page shows nobody a figure. *)
Theorem results_show_rating_change now db roomId s :
  checks db roomId = inr s →
  select_where (λ h, eqb_uuid (h_room_id h) roomId) (match_history db) = [] →
  prof_user_id (s_userA s) ≠ prof_user_id (s_userB s) →
  ∃ dA dB,
    (settle_checked now db roomId).1 = EloUpdated dA dB ∧
    dA = newRatingA s - ratingA s ∧ dB = newRatingB s - ratingB s ∧
    let shown := λ u admin, getRatingChange (Some u)
                   (fetched_history (settle_checked now db roomId).2 u admin roomId) in
    if history_accepted (history_of now s) then
      (newRatingA s ≠ 0 → ∀ admin, shown (prof_user_id (s_userA s)) admin = Some dA) ∧
      (newRatingB s ≠ 0 → ∀ admin, shown (prof_user_id (s_userB s)) admin = Some dB) ∧
      (∀ u admin, u ≠ prof_user_id (s_userA s) → u ≠ prof_user_id (s_userB s) →
                  shown u admin = None)
    else ∀ u admin, shown u admin = None.
Proof.
  intros Hc Hnone Hne. do 2 eexists.
  split; [by rewrite (settle_checked_inr _ _ _ _ Hc)|]. split; [done|]. split; [done|].
  cbv zeta.
  pose proof (rating_of_nonzero (s_userA s) (format_of s)) as HbA.
  pose proof (rating_of_nonzero (s_userB s) (format_of s)) as HbB.
  fold (ratingA s) in HbA. fold (ratingB s) in HbB.
  apply Z.eqb_neq in HbA, HbB.
  destruct (history_accepted (history_of now s)) eqn:Hacc.
  - split; [|split].
    + intros HnA%Z.eqb_neq admin.
      rewrite (fetched_after_first_checked _ _ _ _ _ _ Hc Hnone), Hacc, can_view_history.
      rewrite bool_decide_eq_true_2 by done. cbn [orb andb].
      unfold getRatingChange, truthy_num.
      cbn [history_of user_a_id rating_after_a rating_before_a].
      by rewrite HnA, HbA, bool_decide_eq_true_2.
    + intros HnB%Z.eqb_neq admin.
      rewrite (fetched_after_first_checked _ _ _ _ _ _ Hc Hnone), Hacc, can_view_history.
      rewrite (bool_decide_eq_true_2 (prof_user_id (s_userB s) = prof_user_id (s_userB s)))
        by done.
      rewrite orb_true_r. cbn [orb andb].
      unfold getRatingChange, truthy_num.
      cbn [history_of user_a_id user_b_id rating_after_a rating_before_a
           rating_after_b rating_before_b].
      rewrite HnB, HbB.
      rewrite (bool_decide_eq_false_2 (prof_user_id (s_userA s) = prof_user_id (s_userB s)))
        by done.
      by rewrite bool_decide_eq_true_2.
    + intros u admin HuA HuB.
      rewrite (fetched_after_first_checked _ _ _ _ _ _ Hc Hnone), Hacc. cbn [andb].
      destruct (can_view _ _ _); [|done].
      unfold getRatingChange. cbn [history_of user_a_id user_b_id].
      rewrite (bool_decide_eq_false_2 (prof_user_id (s_userA s) = u)) by congruence.
      by rewrite (bool_decide_eq_false_2 (prof_user_id (s_userB s) = u)) by congruence.
  - intros u admin.
    by rewrite (fetched_after_first_checked _ _ _ _ _ _ Hc Hnone), Hacc.
Qed.



End Generic.


Lemma results_show_rating_change_witness :
  let shown := λ u admin, getRatingChange (Some u)
      (fetched_history (settle_checked (number := R) 0 (db_after win loss) "room-1").2
         u admin "room-1") in
  shown "alice" false = Some 10 ∧ shown "bob" false = Some (-10) ∧
  shown "carol" true = None.
Proof.
  destruct (results_show_rating_change (number := R) 0 (db_after win loss) "room-1"
              (settlement_after win loss)) as (dA & dB & _ & HdA & HdB & Hshown).
  - vm_compute. reflexivity.
  - vm_compute. reflexivity.
  - discriminate.
  - cbv zeta in Hshown.
    pose proof (accepted_example 0) as Hacc. unfold accepted in Hacc.
    apply andb_true_iff in Hacc as [_ Hacc]. rewrite Hacc in Hshown.
    destruct Hshown as (HA & HB & Hother).
    rewrite newRatingA_example in HdA. rewrite newRatingB_example in HdB.
    change (ratingA (settlement_after win loss)) with 1200 in HdA.
    change (ratingB (settlement_after win loss)) with 1200 in HdB.
    simpl in HdA, HdB. subst dA dB.
    split; [apply HA; rewrite newRatingA_example; discriminate|].
    split; [apply HB; rewrite newRatingB_example; discriminate|].
    apply Hother; discriminate.
Defined.



End RoomResultsFacts.

(* ===================================================================== *)
(** * More on the queue: heartbeats, cancelling, the AI-only path          *)
(* ===================================================================== *)

Module QueueMore.
Import Queue QueueFacts.

Lemma filter_id {A} (p : A → bool) l :
  (∀ x, x ∈ l → p x = true) → List.filter p l = l.
Proof.
  induction l as [|x l IH]; [done|]. intros Hall. cbn [List.filter].
  rewrite (Hall x) by left. f_equal. apply IH. intros y Hy. apply Hall. by right.
Qed.

Lemma filter_none {A} (p : A → bool) l :
  (∀ x, x ∈ l → p x = false) → List.filter p l = [].
Proof.
  induction l as [|x l IH]; [done|]. intros Hall. cbn [List.filter].
  rewrite (Hall x) by left. apply IH. intros y Hy. apply Hall. by right.
Qed.

Lemma update_where_id {A} (p : A → bool) (f : A → A) l :
  (∀ x, x ∈ l → p x = false) → update_where p f l = l.
Proof.
  induction l as [|x l IH]; [done|]. intros Hall. cbn [update_where map].
  rewrite (Hall x) by left. f_equal. apply IH. intros y Hy. apply Hall. by right.
Qed.

(** An update that keeps the key and the user of every row and wakes no
    row up is never rejected by the constraints. *)
Lemma update_never_rejected p f t :
  constraints_ok t = true →
  (∀ e, id (f e) = id e) → (∀ e, user_id (f e) = user_id e) →
  (∀ e, is_waiting (f e) = true → is_waiting e = true) →
  update p f t = Some (update_where p f t).
Proof.
  intros Hok Hid Huser Hwake. unfold update, guarded.
  assert (constraints_ok (update_where p f t) = true) as ->; [|done].
  unfold constraints_ok, pkey_ok, one_active_queue_per_user_waiting in *.
  apply andb_true_iff in Hok as [Hk%bool_decide_eq_true Hi%bool_decide_eq_true].
  apply andb_true_iff. split; apply bool_decide_eq_true.
  - by rewrite (update_where_keys id).
  - unfold update_where. clear Hk.
    induction t as [|x t IH]; cbn [map List.filter] in *; [constructor|].
    assert (∀ u, u ∈ map user_id (List.filter is_waiting
                   (map (λ r, if p r then f r else r) t)) →
                 u ∈ map user_id (List.filter is_waiting t)) as Hsub.
    { intros u (y & -> & Hin)%list_elem_of_fmap_1.
      apply list_elem_of_In, filter_In in Hin as [Hin Hwy].
      apply in_map_iff in Hin as (z & Hz & Hin).
      assert (user_id y = user_id z ∧ is_waiting z = true) as [-> Hwz].
      { destruct (p z); subst y; [split; [apply Huser|by apply Hwake]|done]. }
      apply list_elem_of_fmap_2, list_elem_of_In, filter_In. done. }
    destruct (is_waiting x) eqn:Hw; cbn [map] in Hi.
    + apply NoDup_cons in Hi as [Hnot Hi].
      destruct (is_waiting (if p x then f x else x)) eqn:Hw'; [|by apply IH].
      cbn [map]. apply NoDup_cons. split; [|by apply IH].
      intros Hin. apply Hnot.
      assert (user_id (if p x then f x else x) = user_id x) as Hu
        by (destruct (p x); [apply Huser|done]).
      rewrite Hu in Hin. by apply Hsub.
    + assert (is_waiting (if p x then f x else x) = false) as ->; [|by apply IH].
      destruct (p x); [|done].
      destruct (is_waiting (f x)) eqn:E; [|done]. apply Hwake in E. congruence.
Qed.

(** The row a heartbeat writes. *)
Definition stamped (now : Z) (e : QueueEntry) : QueueEntry :=
  {| id := id e; user_id := user_id e; format := format e; mode := mode e;
     opponent_type := opponent_type e; elo := elo e; status := status e;
     joined_at := joined_at e; last_heartbeat_at := now;
     matched_at := matched_at e; room_id := room_id e |}.

(** A heartbeat always lands on a waiting entry, whose
    [last_heartbeat_at] becomes the time of the call and nothing else; an
    entry that is no longer waiting is left as it is, and so is every
    other row in both cases. *)
Theorem heartbeat_lands_only_while_waiting entryId now t e :
  constraints_ok t = true → e ∈ t → id e = entryId →
  let t' := exec (sendHeartbeat entryId now) t in
  (is_waiting e = true → stamped now e ∈ t' ∧ status (stamped now e) = waiting) ∧
  (is_waiting e = false → t' = t) ∧
  (∀ x, x ∈ t → id x ≠ entryId → x ∈ t') ∧
  map id t' = map id t ∧ map status t' = map status t.
Proof.
  intros Hok Hin Hid. cbv zeta. unfold sendHeartbeat. cbn [exec].
  fold (stamped now).
  rewrite update_never_rejected; [|done..]. cbn [default]. unfold Datatypes.id.
  split; [|split; [|split; [|split]]].
  - intros Hw. split; [|by apply bool_decide_eq_true in Hw].
    unfold update_where. apply list_elem_of_fmap. exists e. split; [|done].
    unfold eqb_uuid. by rewrite bool_decide_eq_true_2, Hw.
  - intros Hnw. apply update_where_id. intros x Hx.
    unfold eqb_uuid. case_bool_decide as Hxid; [|done]. cbn [andb].
    assert (x = e) as ->; [|done].
    apply andb_true_iff in Hok as [Hk%bool_decide_eq_true _].
    clear -Hk Hx Hin Hxid Hid. subst entryId.
    induction t as [|y t IH]; [by apply elem_of_nil in Hx|].
    cbn [map] in Hk. apply NoDup_cons in Hk as [Hny Hk].
    apply elem_of_cons in Hx as [-> | Hx], Hin as [-> | Hin]; try done.
    + exfalso. apply Hny. rewrite Hxid. by apply list_elem_of_fmap_2.
    + exfalso. apply Hny. rewrite <- Hxid. by apply list_elem_of_fmap_2.
    + by apply IH.
  - intros x Hx Hne. unfold update_where. apply list_elem_of_fmap. exists x.
    split; [|done]. unfold eqb_uuid. by rewrite bool_decide_eq_false_2.
  - by apply (update_where_keys id).
  - unfold update_where. rewrite List.map_map. apply List.map_ext. intros x.
    by destruct (_ && _).
Qed.

(** Joining and then cancelling: the insert succeeds, the cancel removes
    exactly the entry that was inserted, and what is left is the table
    without the user's earlier waiting entry; every row that was not a
    waiting entry of this user is there exactly as before. *)
Theorem join_then_cancel new_id user rating now settings t :
  constraints_ok t = true → new_id ∉ map id t →
  ∃ entry timer,
    (joinQueue new_id user rating now settings t).2 = Some (entry, timer) ∧
    id entry = new_id ∧
    let t' := exec (cancelQueue (id entry))
                (joinQueue new_id user rating now settings t).1 in
    t' = delete (waiting_entry_of user) t ∧
    List.filter (waiting_entry_of user) t' = [] ∧
    (∀ e, waiting_entry_of user e = false → e ∈ t' ↔ e ∈ t).
Proof.
  intros Hok Hfresh. unfold joinQueue, insert, guarded.
  rewrite insert_after_delete by done. cbn [fst snd].
  do 2 eexists. split; [done|]. split; [done|]. cbv zeta.
  assert (exec (cancelQueue new_id)
            (delete (waiting_entry_of user) t ++ [new_entry new_id user rating now settings])
          = delete (waiting_entry_of user) t) as Hcancel.
  { cbn [cancelQueue exec]. unfold delete at 1, delete_where at 1.
    rewrite List.filter_app. cbn [List.filter new_entry id is_waiting status].
    unfold eqb_uuid, is_waiting. cbn [status].
    rewrite !bool_decide_eq_true_2 by done. cbn [andb negb]. rewrite app_nil_r.
    apply filter_id. intros x Hx.
    rewrite bool_decide_eq_false_2; [done|]. intros Hxid. apply Hfresh.
    rewrite <- Hxid. apply list_elem_of_fmap_2.
    unfold delete, delete_where in Hx.
    by apply list_elem_of_In, filter_In in Hx as [Hx%list_elem_of_In _]. }
  cbn [new_entry id]. rewrite Hcancel. split; [done|]. split.
  - apply no_waiting_entry, deleted_not_waiting.
  - intros e He. unfold delete, delete_where.
    rewrite list_elem_of_In, filter_In, <- list_elem_of_In, He. cbn [negb]. tauto.
Qed.

(** With the preference [ai_only] the timer is armed with no delay.  When
    it fires before anything else touches the entry and the user is an
    admin, the user's entry is marked matched to a new live AI room of the
    format and mode asked for, the user has no waiting entry left, and the
    room has exactly the user and an AI as participants, on the sides the
    format names.  For any other user the insert of the room is rejected
    and the store stays as [joinQueue] left it: no room, no participant,
    and the entry still waiting. *)
Theorem ai_only_join_outcome new_id new_room user admin rating now now' settings s :
  ms_opponentType settings = ai_only →
  constraints_ok (match_queue_entries s) = true →
  new_id ∉ map id (match_queue_entries s) →
  (∀ p, p ∈ debate_participants s → p_room_id p ≠ new_room) →
  let j := joinQueue new_id user rating now settings (match_queue_entries s) in
  let s1 := {| match_queue_entries := j.1; debate_rooms := debate_rooms s;
               debate_participants := debate_participants s |} in
  let s2 := fallback_fires user admin new_room new_id now' s1 in
  ∃ entry,
    j.2 = Some (entry, Some (new_id, 0)) ∧
    if admin then
      ∃ room human ai,
        mark_matched new_room now' entry ∈ match_queue_entries s2 ∧
        List.filter (waiting_entry_of user) (match_queue_entries s2) = [] ∧
        debate_rooms s2 = (debate_rooms s ++ [room])%list ∧
        r_id room = new_room ∧ is_ai_opponent room = true ∧ r_status room = live ∧
        r_format room = ms_format settings ∧ r_mode room = ms_mode settings ∧
        debate_participants s2 = (debate_participants s ++ [human; ai])%list ∧
        p_room_id human = new_room ∧ p_user_id human = Some user ∧ is_ai human = false ∧
        p_room_id ai = new_room ∧ p_user_id ai = None ∧ is_ai ai = true ∧
        (role human, role ai) =
          (if bool_decide (ms_format settings = "LD")
           then ("affirmative", "negative") else ("proposition", "opposition"))
    else
      s2 = s1 ∧ entry ∈ match_queue_entries s2 ∧ is_waiting entry = true ∧
      user_id entry = user.
Proof.
  intros Hai Hok Hfresh Hroom. cbv zeta. unfold joinQueue, insert, guarded.
  rewrite insert_after_delete by done. cbn [fst snd].
  set (entry := new_entry new_id user rating now settings).
  set (t1 := delete (waiting_entry_of user) (match_queue_entries s)).
  assert (∀ x, x ∈ t1 → id x ≠ new_id) as Hids.
  { intros x Hx Hxid. apply Hfresh. rewrite <- Hxid. apply list_elem_of_fmap_2.
    unfold t1, delete, delete_where in Hx.
    by apply list_elem_of_In, filter_In in Hx as [Hx%list_elem_of_In _]. }
  assert (reread new_id
            {| match_queue_entries := (t1 ++ [entry])%list;
               debate_rooms := debate_rooms s;
               debate_participants := debate_participants s |} = Some entry) as Hread.
  { unfold reread, select_where. cbn [match_queue_entries].
    rewrite List.filter_app, filter_none.
    - cbn [List.filter entry new_entry id app]. unfold eqb_uuid.
      by rewrite bool_decide_eq_true_2.
    - intros x Hx. unfold eqb_uuid. rewrite bool_decide_eq_false_2; [done|]. by apply Hids. }
  rewrite (fallback_fires_on_waiting _ _ _ _ _ _ entry Hread eq_refl).
  exists entry. split.
  { unfold fallback_timer. rewrite Hai. done. }
  destruct admin.
  - unfold createAIMatch, can_view_room. rewrite orb_true_r.
    cbn [negb match_queue_entries debate_rooms debate_participants exec].
    rewrite update_never_rejected; [|by apply insert_after_delete|done..].
    cbn [default r_id]. unfold Datatypes.id.
    assert (update_where (λ e, eqb_uuid (id e) (id entry) && eqb_uuid (user_id e) user)
              (mark_matched new_room now')
              (t1 ++ [entry]) = (t1 ++ [mark_matched new_room now' entry])%list) as ->.
    { unfold update_where at 1. rewrite map_app. cbn [map].
      assert (eqb_uuid (id entry) (id entry) && eqb_uuid (user_id entry) user = true) as ->.
      { unfold eqb_uuid. by rewrite !bool_decide_eq_true_2. }
      f_equal.
      apply update_where_id. intros x Hx. unfold eqb_uuid at 1.
      rewrite bool_decide_eq_false_2; [done|]. by apply Hids. }
    do 3 eexists. split; [apply elem_of_app; right; by left|]. split.
    { rewrite List.filter_app. cbn [List.filter].
      assert (waiting_entry_of user (mark_matched new_room now' entry) = false) as ->.
      { unfold waiting_entry_of. apply andb_false_r. }
      rewrite app_nil_r.
      apply no_waiting_entry, deleted_not_waiting. }
    split; [reflexivity|]. cbn [r_id is_ai_opponent r_status r_format r_mode].
    do 5 (split; [done|]). split; [reflexivity|].
    cbn [p_room_id p_user_id is_ai role r_id entry new_entry format].
    do 6 (split; [done|]). by case_bool_decide.
  - rewrite createAIMatch_rejected by done.
    split; [done|]. split; [apply elem_of_app; right; by left|]. done.
Qed.

Lemma heartbeat_lands_only_while_waiting_witness :
  stamped 5000 alice_waiting ∈ exec (sendHeartbeat "q-1" 5000) [alice_waiting; bob_matched] ∧
  exec (sendHeartbeat (id bob_matched) 5000) [alice_waiting; bob_matched]
    = [alice_waiting; bob_matched].
Proof.
  split.
  - refine (proj1 (proj1 (heartbeat_lands_only_while_waiting "q-1" 5000
             [alice_waiting; bob_matched] alice_waiting _ _ _) _)).
    + vm_compute. reflexivity.
    + by left.
    + reflexivity.
    + reflexivity.
  - refine (proj1 (proj2 (heartbeat_lands_only_while_waiting (id bob_matched) 5000
             [alice_waiting; bob_matched] bob_matched _ _ _)) _).
    + vm_compute. reflexivity.
    + right. by left.
    + reflexivity.
    + reflexivity.
Defined.

Lemma join_then_cancel_witness :
  ∃ entry timer,
    (joinQueue "q-9" "alice" 1200 7 rapid_ai [alice_waiting; bob_matched]).2
      = Some (entry, timer) ∧
    exec (cancelQueue (id entry))
      (joinQueue "q-9" "alice" 1200 7 rapid_ai [alice_waiting; bob_matched]).1
      = [bob_matched].
Proof.
  destruct (join_then_cancel "q-9" "alice" 1200 7 rapid_ai [alice_waiting; bob_matched])
    as (entry & timer & Hj & _ & Ht & _).
  - vm_compute. reflexivity.
  - apply (bool_decide_unpack _). vm_compute. exact I.
  - exists entry, timer. split; [exact Hj|]. rewrite Ht. vm_compute. reflexivity.
Defined.

Definition ai_only_settings : MatchSettings :=
  {| ms_format := "LD"; ms_mode := unranked; ms_opponentType := ai_only |}.

Lemma ai_only_join_outcome_witness :
  (∃ entry,
     (joinQueue "q-9" "alice" 1200 7 ai_only_settings (match_queue_entries store0)).2
       = Some (entry, Some ("q-9", 0)) ∧
     ∃ room human ai,
       debate_rooms
         (fallback_fires "alice" true "room-9" "q-9" 8
            {| match_queue_entries :=
                 (joinQueue "q-9" "alice" 1200 7 ai_only_settings
                    (match_queue_entries store0)).1;
               debate_rooms := debate_rooms store0;
               debate_participants := debate_participants store0 |})
         = (debate_rooms store0 ++ [room])%list ∧
       r_id room = "room-9" ∧ is_ai_opponent room = true ∧
       (role human, role ai) = ("affirmative", "negative")) ∧
  (∃ entry,
     debate_rooms
       (fallback_fires "alice" false "room-9" "q-9" 8
          {| match_queue_entries :=
               (joinQueue "q-9" "alice" 1200 7 ai_only_settings
                  (match_queue_entries store0)).1;
             debate_rooms := debate_rooms store0;
             debate_participants := debate_participants store0 |}) = [] ∧
     is_waiting entry = true ∧ user_id entry = "alice").
Proof.
  split.
  - destruct (ai_only_join_outcome "q-9" "room-9" "alice" true 1200 7 8
                ai_only_settings store0)
      as (entry & Hj & room & human & ai & _ & _ & Hrooms & Hid & Hai & _ & _ & _ & _ & _
          & _ & _ & _ & _ & _ & Hroles).
    + reflexivity.
    + vm_compute. reflexivity.
    + apply (bool_decide_unpack _). vm_compute. exact I.
    + intros p Hp. by apply elem_of_nil in Hp.
    + exists entry. split; [exact Hj|]. exists room, human, ai. done.
  - destruct (ai_only_join_outcome "q-9" "room-9" "alice" false 1200 7 8
                ai_only_settings store0) as (entry & _ & Hsame & _ & Hw & Hu).
    + reflexivity.
    + vm_compute. reflexivity.
    + apply (bool_decide_unpack _). vm_compute. exact I.
    + intros p Hp. by apply elem_of_nil in Hp.
    + exists entry. rewrite Hsame. done.
Defined.

End QueueMore.

(* ===================================================================== *)
(** * More on the live room: the clock, the turns, the offer               *)
(* ===================================================================== *)

Module RoomMore.
Import LiveDebateRoom LiveDebateRoomView RoomFacts.

(** ** The clock of a speech *)

Lemma getSpeechTime_pos f p : 60 ≤ getSpeechTime f p.
Proof. destruct f, p; vm_compute; congruence. Qed.

Lemma run_cons e evs s : run (e :: evs) s = run evs (handle e s).
Proof. done. Qed.

Lemma run_app evs evs' s : run (evs ++ evs') s = run evs' (run evs s).
Proof. unfold run. apply foldl_app. Qed.

Lemma set_timer_same s : set_timer (timeLeft s) (isTimerRunning s) s = s.
Proof. by destruct s. Qed.

Lemma set_timer_twice a b c d s : set_timer a b (set_timer c d s) = set_timer a b s.
Proof. done. Qed.

(** While more than [k] seconds are left, [k] ticks only lower the clock. *)
Lemma ticks_running k s :
  isTimerRunning s = true → Z.of_nat k < timeLeft s →
  run (replicate k Tick) s = set_timer (timeLeft s - Z.of_nat k) true s.
Proof.
  revert s. induction k as [|k IH]; intros s Hrun Hk.
  - cbn [replicate]. rewrite Z.sub_0_r, <- Hrun. symmetry. apply set_timer_same.
  - cbn [replicate]. rewrite run_cons. cbn [handle]. rewrite Hrun. unfold tick.
    assert ((timeLeft s <=? 1) = false) as -> by (apply Z.leb_gt; lia).
    rewrite IH; cbn [set_timer timeLeft isTimerRunning]; [|done|lia].
    change (set_timer (timeLeft s - 1 - Z.of_nat k) true (set_timer (timeLeft s - 1) true s)
            = set_timer (timeLeft s - Z.of_nat (S k)) true s).
    rewrite set_timer_twice. f_equal. lia.
Qed.

Lemma ticks_stopped n s : isTimerRunning s = false → run (replicate n Tick) s = s.
Proof.
  intros Hstop. induction n as [|n IH]; [done|].
  cbn [replicate]. rewrite run_cons. cbn [handle]. by rewrite Hstop.
Qed.

(** A speech lasts exactly its allotted time: started with [startPhase],
    phase [p] stays with the clock running and one second less at each
    tick; the tick that takes the last second stops the clock at 0 and
    either stages the pause before the next speech or, after the last
    speech, completes the debate and opens the prediction modal; further
    ticks change nothing. *)
Theorem speech_lasts_its_time p s0 :
  let s := startPhase p s0 in
  let T := Z.to_nat (getSpeechTime (hvhFormat s0) p) in
  (0 < T)%nat ∧
  (∀ k, (k < T)%nat →
     let s' := run (replicate k Tick) s in
     phase s' = p ∧ isTimerRunning s' = true ∧
     timeLeft s' = getSpeechTime (hvhFormat s0) p - Z.of_nat k ∧
     showTransition s' = showTransition s0 ∧
     showPredictionModal s' = showPredictionModal s0) ∧
  let s' := run (replicate T Tick) s in
  isTimerRunning s' = false ∧ timeLeft s' = 0 ∧
  match getNextPhase p with
  | Some q => phase s' = p ∧ showTransition s' = true ∧
              nextPhaseAfterTransition s' = Some q
  | None => phase s' = debate_complete ∧ showPredictionModal s' = true
  end ∧
  (∀ n, run (replicate n Tick) s' = s').
Proof.
  cbv zeta. pose proof (getSpeechTime_pos (hvhFormat s0) p) as Hpos.
  set (T := getSpeechTime (hvhFormat s0) p) in *.
  assert (isTimerRunning (startPhase p s0) = true) as Hrun.
  { unfold startPhase. by destruct (_ && voiceSupported _). }
  assert (timeLeft (startPhase p s0) = T) as Htime.
  { unfold startPhase. by destruct (_ && voiceSupported _). }
  assert (phase (startPhase p s0) = p) as Hphase.
  { unfold startPhase. by destruct (_ && voiceSupported _). }
  assert (showTransition (startPhase p s0) = showTransition s0) as Hshow.
  { unfold startPhase. by destruct (_ && voiceSupported _). }
  assert (showPredictionModal (startPhase p s0) = showPredictionModal s0) as Hmodal.
  { unfold startPhase. by destruct (_ && voiceSupported _). }
  split; [lia|]. split.
  - intros k Hk. rewrite ticks_running by (done || lia).
    rewrite Htime. by destruct (startPhase p s0).
  - assert (Z.to_nat T = S (Z.to_nat T - 1)) as -> by lia.
    rewrite replicate_S_end, run_app, ticks_running by (done || lia).
    rewrite Htime. cbn [run foldl handle].
    set (s1 := set_timer _ true _).
    assert (isTimerRunning s1 = true) as -> by done.
    assert ((timeLeft s1 <=? 1) = true) as Hlast.
    { apply Z.leb_le. unfold s1. destruct (startPhase p s0). cbn. lia. }
    unfold tick. rewrite Hlast.
    assert (phase s1 = p) as Hp1 by (unfold s1; by destruct (startPhase p s0)).
    pose proof (handlePhaseEnd_core s1) as Hcore. rewrite Hp1 in Hcore.
    unfold core in Hcore.
    assert (isTimerRunning (handlePhaseEnd s1) = false) as Hstop.
    { destruct (getNextPhase p); by injection Hcore as _ -> _ _. }
    rewrite Hstop. split; [done|]. split; [done|]. split.
    + unfold handlePhaseEnd. rewrite Hp1.
      destruct (getNextPhase p); by destruct (isRecording s1).
    + intros n. by apply ticks_stopped.
Qed.

(** ** The clock, whatever happens *)




(** ** Turns *)

(** In each speech phase exactly one of the two sides has the turn, and
    in every other phase neither has; the proposition opens; from each
    speech to the next the turn changes sides. *)
Theorem turns_alternate p :
  isUserTurn true p = is_speech p && negb (isUserTurn false p) ∧
  isUserTurn false p = is_speech p && negb (isUserTurn true p) ∧
  SPEECH_PHASES !! 0%nat = Some prop_constructive ∧
  isUserTurn true prop_constructive = true ∧
  match getNextPhase p with
  | Some q => ∀ side, isUserTurn side q = negb (isUserTurn side p)
  | None => True
  end.
Proof.
  repeat split; try by destruct p.
  destruct p; cbn; try done; by intros [].
Qed.

(** ** The offer *)

Lemma sort_pair a b :
  sort [a; b] = if String.leb a b then [a; b] else [b; a].
Proof. done. Qed.

(** Two clients of a room with two users, each holding the participants
    in whatever order: exactly one of them creates the offer, the one
    whose id sorts first. *)
Theorem exactly_one_creates_offer psa psb a b :
  a ≠ b → userIds psa ≡ₚ [a; b] → userIds psb ≡ₚ [a; b] →
  shouldCreateOffer psa a = negb (shouldCreateOffer psb b) ∧
  shouldCreateOffer psa a = String.leb a b.
Proof.
  intros Hne Ha Hb.
  assert (String.leb b a = negb (String.leb a b)) as Hflip.
  { destruct (String.leb a b) eqn:Hab, (String.leb b a) eqn:Hba; try done.
    - by destruct Hne; apply String.leb_antisym.
    - destruct (String.leb_total a b); congruence. }
  assert (∀ ps, userIds ps ≡ₚ [a; b] →
            sort (userIds ps) = if String.leb a b then [a; b] else [b; a]) as Hsort.
  { intros ps Hps. symmetry in Hps.
    apply Permutation_length_2_inv in Hps as [-> | ->]; rewrite sort_pair; [done|].
    rewrite Hflip. by destruct (String.leb a b). }
  unfold shouldCreateOffer. cbv zeta. rewrite (Hsort _ Ha), (Hsort _ Hb).
  destruct (String.leb a b); cbn [length Nat.leb andb lookup list_lookup].
  - rewrite bool_decide_eq_true_2 by done.
    by rewrite bool_decide_eq_false_2 by congruence.
  - rewrite (bool_decide_eq_false_2 (Some b = Some a)) by congruence.
    by rewrite bool_decide_eq_true_2.
Qed.

Lemma exactly_one_creates_offer_witness :
  shouldCreateOffer [Some "bob"; None; Some "alice"] "alice" = true ∧
  shouldCreateOffer [Some "alice"; Some "bob"] "bob" = false.
Proof.
  destruct (exactly_one_creates_offer [Some "bob"; None; Some "alice"]
              [Some "alice"; Some "bob"] "alice" "bob") as [Hone Hfirst].
  - discriminate.
  - cbn. apply Permutation_swap.
  - cbn. reflexivity.
  - split; [exact Hfirst|]. rewrite Hfirst in Hone. by destruct (shouldCreateOffer _ "bob").
Defined.

End RoomMore.

(* ===================================================================== *)
(** * The timers: what they count and when they complete                 *)
(* ===================================================================== *)

Module PrepTimerFacts.
Import PrepTimer.

(** The ticks of a trace that arrive while the timer is not paused. *)
Fixpoint unpaused_ticks (evs : list Event) (paused : bool) : nat :=
  match evs with
  | [] => 0
  | Tick :: evs' => (if paused then 0 else 1) + unpaused_ticks evs' paused
  | TogglePause :: evs' => unpaused_ticks evs' (negb paused)
  | Skip :: evs' => unpaused_ticks evs' paused
  end.

Lemma prep_run_cons e evs s : run (e :: evs) s = run evs (handle e s).
Proof. done. Qed.

Ltac leb_cases :=
  repeat match goal with
         | |- context [(?a <=? ?b)%Z] => destruct (Z.leb_spec a b)
         end; cbn [andb]; try lia.

Lemma count_from evs s :
  serverTimeProp s = None → 0 ≤ timeLeft s →
  let u := Z.of_nat (unpaused_ticks evs (isPaused s)) in
  timeLeft (run evs s) = Z.max 0 (timeLeft s - u) ∧
  completions (run evs s) =
    (completions s + (if ((1 <=? timeLeft s) && (timeLeft s <=? u))%Z then 1 else 0))%nat.
Proof.
  revert s. induction evs as [|e evs IH]; intros s Hnone Hpos; cbv zeta.
  - cbn [unpaused_ticks run foldl]. split; [lia|]. leb_cases.
  - rewrite prep_run_cons. destruct s as [tot srv t paused c k].
    cbn [serverTimeProp timeLeft isPaused completions] in *. subst srv.
    assert (∀ s1, serverTimeProp s1 = None → 0 ≤ timeLeft s1 →
              Z.max 0 (timeLeft s1 - Z.of_nat (unpaused_ticks evs (isPaused s1)))
                = Z.max 0 (t - Z.of_nat (unpaused_ticks (e :: evs) paused)) →
              (completions s1 +
                 (if ((1 <=? timeLeft s1) &&
                      (timeLeft s1 <=? Z.of_nat (unpaused_ticks evs (isPaused s1))))%Z
                  then 1 else 0))%nat =
              (c + (if ((1 <=? t) &&
                        (t <=? Z.of_nat (unpaused_ticks (e :: evs) paused)))%Z
                    then 1 else 0))%nat →
              timeLeft (run evs s1) =
                Z.max 0 (t - Z.of_nat (unpaused_ticks (e :: evs) paused)) ∧
              completions (run evs s1) =
                (c + (if ((1 <=? t) &&
                          (t <=? Z.of_nat (unpaused_ticks (e :: evs) paused)))%Z
                      then 1 else 0))%nat) as Hstep.
    { intros s1 H1 H2 Ht Hc. destruct (IH s1 H1 H2) as [IHt IHc].
      rewrite IHt, IHc. split; [done|done]. }
    destruct e; unfold handle, interval, sync, set_timeLeft;
      cbn [serverTimeProp timeLeft isPaused completions].
    + destruct paused; cbn [orb].
      { apply Hstep; cbn [serverTimeProp timeLeft isPaused completions unpaused_ticks];
          (done || lia). }
      destruct (Z.leb_spec t 0) as [H0|H0];
        [|destruct (Z.leb_spec t 1) as [H1|H1]];
        cbn [serverTimeProp timeLeft isPaused completions];
        apply Hstep; cbn [serverTimeProp timeLeft isPaused completions unpaused_ticks];
        try done; try lia; leb_cases.
    + apply Hstep; cbn [serverTimeProp timeLeft isPaused completions unpaused_ticks];
        (done || lia).
    + apply Hstep; cbn [serverTimeProp timeLeft isPaused completions unpaused_ticks];
        (done || lia).
Qed.

(** Without a server time, the timer counts exactly the seconds that pass
    while it is not paused: after any clicks and ticks it shows the total
    less those seconds, not below 0, and it has called [onComplete] once
    if they have reached a total of at least 1, and never otherwise; with
    a total of 0 it never completes by itself. *)
Theorem prep_timer_counts_unpaused_seconds total evs :
  0 ≤ total →
  let s := run evs (mount total None) in
  let u := Z.of_nat (unpaused_ticks evs false) in
  timeLeft s = Z.max 0 (total - u) ∧
  completions s = if (1 <=? total) && (total <=? u) then 1%nat else 0%nat.
Proof.
  intros Hpos. cbv zeta. by destruct (count_from evs (mount total None)).
Qed.

(** What holds while the server time stays at [v]. *)
Definition Stale (v : Z) (s : State) : Prop :=
  serverTimeProp s = Some v ∧ completions s = 0%nat ∧ v - 1 ≤ timeLeft s ≤ v + 1.

Lemma sync_stale v s :
  serverTimeProp s = Some v → completions s = 0%nat → Stale v (sync s).
Proof.
  intros Hv Hc. unfold Stale, sync. rewrite Hv.
  destruct (1 <? Z.abs (timeLeft s - v)) eqn:Hfar.
  - cbn. repeat split; (done || lia).
  - apply Z.ltb_ge in Hfar. repeat split; (done || lia).
Qed.

(** While the parent keeps passing the same server time of 3 seconds or
    more, the display stays within a second of it and the timer never
    calls [onComplete], whatever the total and however long it runs. *)
Theorem stale_server_time_never_completes v total evs :
  3 ≤ v →
  let s := run evs (mount total (Some v)) in
  completions s = 0%nat ∧ v - 1 ≤ timeLeft s ≤ v + 1.
Proof.
  intros Hv. cbv zeta.
  assert (∀ s, Stale v s → Stale v (run evs s)) as Hall.
  { induction evs as [|e evs IH]; intros s Hs; [done|].
    rewrite prep_run_cons. apply IH. destruct Hs as (Hsrv & Hc & Ht).
    destruct e; unfold handle; apply sync_stale; try done.
    - unfold interval. destruct (isPaused s || _); [done|].
      assert ((timeLeft s <=? 1) = false) as -> by (apply Z.leb_gt; lia). done.
    - unfold interval. destruct (isPaused s || _); [done|].
      assert ((timeLeft s <=? 1) = false) as -> by (apply Z.leb_gt; lia). done. }
  destruct (Hall (mount total (Some v))) as (_ & Hc & Ht); [|done].
  by apply sync_stale.
Qed.

Lemma prep_timer_counts_unpaused_seconds_witness :
  completions (run [Tick; TogglePause; Tick; TogglePause; Tick; Tick] (mount 3 None)) = 1%nat ∧
  completions (run [Tick; Tick; Tick] (mount 0 None)) = 0%nat.
Proof.
  split.
  - refine (proj2 (prep_timer_counts_unpaused_seconds 3
             [Tick; TogglePause; Tick; TogglePause; Tick; Tick] _)). lia.
  - refine (proj2 (prep_timer_counts_unpaused_seconds 0 [Tick; Tick; Tick] _)). lia.
Defined.

Lemma stale_server_time_never_completes_witness :
  completions (run (replicate 100 Tick) (mount 30 (Some 5))) = 0%nat.
Proof.
  refine (proj1 (stale_server_time_never_completes 5 30 (replicate 100 Tick) _)). lia.
Defined.

End PrepTimerFacts.

Module TransitionCountdownFacts.
Import TransitionCountdown.

Lemma countdown_run_cons e evs s : run (e :: evs) s = run evs (handle e s).
Proof. done. Qed.

Lemma countdown_run_app evs evs' s : run (evs ++ evs') s = run evs' (run evs s).
Proof. unfold run. apply foldl_app. Qed.

(** In the modes [tick] and [both] nothing happens until the user
    confirms: whatever else occurs (seconds passing, the overlay shown and
    hidden, clicks on anything else), no countdown starts and
    [onComplete] is not called. *)
Theorem no_completion_before_confirm visible m evs :
  m ≠ mode_auto → Confirm ∉ evs →
  let s := run evs (mount visible m) in
  completions s = 0%nat ∧ isCountingDown s = false.
Proof.
  intros Hm Hevs. cbv zeta.
  pose (Idle := λ s, mode s = m ∧ isCountingDown s = false ∧
                     autoStartTimer s = false ∧ completions s = 0%nat).
  assert (∀ s, Idle s → Idle (run evs s)) as Hall.
  { induction evs as [|e evs IH]; intros s Hs; [done|].
    rewrite countdown_run_cons. apply not_elem_of_cons in Hevs as [He Hevs].
    apply IH; [done|]. destruct Hs as (Hmode & Hcount & Hauto & Hdone).
    destruct e; cbn [handle]; try done.
    - destruct (isVisible s); [done|]. unfold Idle, reset. cbn.
      rewrite Hmode. by destruct m.
    - destruct (isVisible s); [|done]. by unfold Idle, reset; cbn.
    - by rewrite Hauto.
    - unfold interval. by rewrite Hcount.
    - by rewrite Hcount, andb_false_r.
    - rewrite Hmode. destruct m; by rewrite ?andb_false_r. }
  destruct (Hall (mount visible m)) as (_ & Hc & _ & Hd); [|done].
  unfold Idle, mount, reset. destruct visible; cbn; by destruct m.
Qed.






Lemma no_completion_before_confirm_witness :
  completions (run [Show; Tick; SkipCountdown; Hide; Show; SkipToNext; Tick]
                 (mount false mode_both)) = 0%nat.
Proof.
  refine (proj1 (no_completion_before_confirm false mode_both
            [Show; Tick; SkipCountdown; Hide; Show; SkipToNext; Tick] _ _)).
  - discriminate.
  - apply (bool_decide_unpack _). vm_compute. exact I.
Defined.


End TransitionCountdownFacts.

(* ===================================================================== *)
(** * The rating engine and the order of the profile rows                  *)
(* ===================================================================== *)

Module EloRowOrder.
Import Elo EloFacts EloMore.

(** The store with another [profiles] table. *)
Definition with_profiles (ps : list profile) (db : Db) : Db :=
  {| debate_rooms := debate_rooms db;
     match_result_submissions := match_result_submissions db;
     debate_participants := debate_participants db;
     profiles := ps;
     match_history := match_history db |}.

(** The settlement with the two users in the other order. *)
Definition swapped (s : settlement) : settlement :=
  {| s_room := s_room s; s_userA := s_userB s; s_userB := s_userA s;
     s_winnerUserId := s_winnerUserId s; s_isDraw := s_isDraw s |}.

Lemma filter_rev_list {A} (p : A → bool) (l : list A) :
  List.filter p (rev l) = rev (List.filter p l).
Proof.
  induction l as [|x l IH]; [done|]. cbn [rev List.filter].
  rewrite List.filter_app, IH. cbn [List.filter]. destruct (p x); [done|].
  by rewrite app_nil_r.
Qed.

(** When exactly two profiles belong to the room, reading them in the
    reverse order hands the same settlement to the write phase with the
    two users exchanged. *)
Lemma checks_profiles_rev db roomId s :
  checks db roomId = inr s →
  profs_of db roomId = [s_userA s; s_userB s] →
  checks (with_profiles (rev (profiles db)) db) roomId = inr (swapped s).
Proof.
  unfold profs_of, parts_of, checks, select_where, with_profiles.
  cbn [debate_rooms match_result_submissions debate_participants profiles].
  rewrite filter_rev_list.
  case_bool_decide; [done|].
  destruct (single _); [|done].
  destruct (_ || _); [done|].
  destruct (_ <? _)%nat; [done|].
  destruct (negb _); [done|].
  destruct (_ <? _)%nat; [done|].
  destruct (List.filter _ (profiles db)) as [|a [|b rest]]; [done..|].
  intros [= <-]. cbn [s_userA s_userB]. by intros [= ->].
Qed.

Section Generic.
Context {number : Type} `{JsNumber number}.

(** The rating changes do not depend on the order in which the store
    returns the two profiles, as long as the result is a draw or the
    recorded winner is one of the two users: with the rows in the other
    order each user gets the same change. *)
Theorem rating_changes_independent_of_row_order now db roomId s :
  checks db roomId = inr s →
  profs_of db roomId = [s_userA s; s_userB s] →
  prof_user_id (s_userA s) ≠ prof_user_id (s_userB s) →
  s_isDraw s = true
    ∨ s_winnerUserId s = Some (prof_user_id (s_userA s))
    ∨ s_winnerUserId s = Some (prof_user_id (s_userB s)) →
  ∃ dA dB,
    (settle now db roomId).1 = EloUpdated dA dB ∧
    (settle now (with_profiles (rev (profiles db)) db) roomId).1 = EloUpdated dB dA.
Proof.
  intros Hc Hp Hne Hw.
  rewrite (settle_inr now _ _ _ Hc).
  rewrite (settle_inr now _ _ _ (checks_profiles_rev _ _ _ Hc Hp)).
  do 2 eexists. split; [reflexivity|]. cbn [fst].
  assert (scores (swapped s) = ((scores s).2, (scores s).1)) as Hsc.
  { unfold scores. cbn [swapped s_isDraw s_winnerUserId s_userA prof_user_id].
    destruct Hw as [-> | [Hw | Hw]]; [done|..]; rewrite Hw;
      destruct (s_isDraw s); try done.
    - rewrite (bool_decide_eq_false_2
                 (Some (prof_user_id (s_userA s)) = Some (prof_user_id (s_userB s))))
        by congruence.
      by rewrite bool_decide_eq_true_2.
    - rewrite (bool_decide_eq_false_2
                 (Some (prof_user_id (s_userB s)) = Some (prof_user_id (s_userA s))))
        by congruence.
      by rewrite bool_decide_eq_true_2. }
  unfold newRatingA, newRatingB, ratingA, ratingB, scoreA, scoreB, format_of.
  rewrite Hsc. reflexivity.
Qed.

End Generic.

Lemma rating_changes_independent_of_row_order_witness :
  ∃ dA dB,
    (settle (number := R) 0 (db_after win loss) "room-1").1 = EloUpdated dA dB ∧
    (settle (number := R) 0
       (with_profiles (rev (profiles (db_after win loss))) (db_after win loss)) "room-1").1
      = EloUpdated dB dA.
Proof.
  apply (rating_changes_independent_of_row_order (number := R) 0 (db_after win loss)
           "room-1" (settlement_after win loss)).
  - vm_compute. reflexivity.
  - vm_compute. reflexivity.
  - discriminate.
  - right. left. reflexivity.
Defined.

End EloRowOrder.
